(** * MySQL table-definition reflection: [mysql/reflection.py]

    A shallow embedding of [MySQLTableDefinitionParser] and of the part
    of Python's [re] module its patterns use, followed by the properties
    of the parser that are proved about it.

    Text is modelled as [string] over 8-bit characters; the character
    classes [\w], [\d], [\s] and case folding are the ASCII ones. *)

From Stdlib Require Import String Ascii List Bool Arith Lia.
Import ListNotations.
Set Warnings "-register-all".
Open Scope list_scope.
Open Scope string_scope.
Open Scope nat_scope.

(** ** Python [str] operations used by the module *)

Module Str.

Definition nl : ascii := Eval cbv in ascii_of_nat 10.
Definition cr : ascii := Eval cbv in ascii_of_nat 13.
Definition dquote : ascii := Eval cbv in ascii_of_nat 34.
Definition squote : ascii := "'"%char.

Definition is_upper (a : ascii) : bool :=
  let n := nat_of_ascii a in (65 <=? n) && (n <=? 90).
Definition is_lower (a : ascii) : bool :=
  let n := nat_of_ascii a in (97 <=? n) && (n <=? 122).
Definition is_digit (a : ascii) : bool :=
  let n := nat_of_ascii a in (48 <=? n) && (n <=? 57).
Definition is_word (a : ascii) : bool :=
  is_upper a || is_lower a || is_digit a || Ascii.eqb a "_".
Definition is_space (a : ascii) : bool :=
  let n := nat_of_ascii a in
  ((9 <=? n) && (n <=? 13)) || ((28 <=? n) && (n <=? 32)).

Definition lower_char (a : ascii) : ascii :=
  if is_upper a then ascii_of_nat (nat_of_ascii a + 32) else a.

(** [s.lower()] *)
Fixpoint lower (s : string) : string :=
  match s with
  | EmptyString => EmptyString
  | String a s' => String (lower_char a) (lower s')
  end.

(** [s.startswith(p)] *)
Definition startswith (s p : string) : bool := String.prefix p s.

(** [sub in s] *)
Fixpoint contains (sub s : string) : bool :=
  String.prefix sub s ||
  match s with
  | EmptyString => false
  | String _ s' => contains sub s'
  end.

(** [s[n:]] *)
Fixpoint drop (n : nat) (s : string) : string :=
  match n, s with
  | 0, _ => s
  | S _, EmptyString => EmptyString
  | S n', String _ s' => drop n' s'
  end.

(** [s[:n]] *)
Fixpoint take (n : nat) (s : string) : string :=
  match n, s with
  | 0, _ => EmptyString
  | S _, EmptyString => EmptyString
  | S n', String a s' => String a (take n' s')
  end.

(** [s[a:b]] for [0 <= a], [0 <= b] *)
Definition slice (a b : nat) (s : string) : string := take (b - a) (drop a s).

(** [s.replace(old, new)] for a non-empty [old]: non-overlapping
    occurrences, leftmost first. *)
Fixpoint replace_fuel (fuel : nat) (old new s : string) : string :=
  match fuel with
  | 0 => s
  | S f =>
      match s with
      | EmptyString => EmptyString
      | String a s' =>
          if String.prefix old s
          then new ++ replace_fuel f old new (drop (String.length old) s)
          else String a (replace_fuel f old new s')
      end
  end.

Definition replace (old new s : string) : string :=
  match old with
  | EmptyString => s
  | _ => replace_fuel (S (String.length s)) old new s
  end.

(** [s[0]] and [s[-1]] of a non-empty [s] *)
Definition first (s : string) : option ascii :=
  match s with
  | EmptyString => None
  | String a _ => Some a
  end.

Fixpoint last (s : string) : option ascii :=
  match s with
  | EmptyString => None
  | String a EmptyString => Some a
  | String _ s' => last s'
  end.


(** Truth value of a [str]. *)
Definition truthy (s : string) : bool :=
  match s with EmptyString => false | _ => true end.

(** [int(v)] on a run of decimal digits. *)
Fixpoint int_acc (acc : nat) (s : string) : nat :=
  match s with
  | EmptyString => acc
  | String a s' => int_acc (10 * acc + (nat_of_ascii a - 48)) s'
  end.
Definition int (s : string) : nat := int_acc 0 s.

End Str.

(** ** The fragment of Python's [re] used by the module *)

Module Re.

(** Sets of characters: what one pattern character or class matches. *)
Inductive cset : Type :=
| CDot                      (* [.]: any character but a newline *)
| CLit (a : ascii)          (* a literal character *)
| CWord                     (* [\w] *)
| CDigit                    (* [\d] *)
| CSpace                    (* [\s] *)
| CNot (c : cset)           (* [\S], [[^...]] *)
| COr (c1 c2 : cset)        (* [[...]] *)
| CNone.

(** Membership; [ci] is the [re.I] flag. *)
Fixpoint cset_mem (ci : bool) (c : cset) (a : ascii) : bool :=
  match c with
  | CDot => negb (Ascii.eqb a Str.nl)
  | CLit b =>
      if ci then Ascii.eqb (Str.lower_char a) (Str.lower_char b)
      else Ascii.eqb a b
  | CWord => Str.is_word a
  | CDigit => Str.is_digit a
  | CSpace => Str.is_space a
  | CNot c' => negb (cset_mem ci c' a)
  | COr c1 c2 => cset_mem ci c1 a || cset_mem ci c2 a
  | CNone => false
  end.

(** Patterns.  [r+] is [Seq r (Star g r)], [r?] is [Alt r Eps] (greedy)
    or [Alt Eps r] (lazy). *)
Inductive regex : Type :=
| Eps
| Chr (c : cset)
| Seq (r1 r2 : regex)
| Alt (r1 r2 : regex)
| Star (greedy : bool) (r : regex)
| Group (g : nat) (r : regex)
| Look (positive : bool) (r : regex)
| Bol
| Eol.

(** Captured groups: group number to (start, end), newest first. *)
Definition caps : Type := list (nat * (nat * nat)).

Fixpoint cap_get (g : nat) (c : caps) : option (nat * nat) :=
  match c with
  | [] => None
  | (g', se) :: c' => if Nat.eqb g g' then Some se else cap_get g c'
  end.

(** Outcome of a successful match: end position, text left, captures. *)
Definition mres : Type := (nat * string * caps)%type.
Definition cont : Type := nat -> string -> caps -> option mres.

(** One matcher for a pattern: where it starts, the text from there on,
    the captures so far and what to do with the rest. *)
Definition matcher : Type := nat -> string -> caps -> cont -> option mres.

(** The loop of [r*] (greedy) and [r*?] (lazy) over the matcher of [r]:
    an iteration counts only when it consumes text, so [fuel] above the
    length of the text is never used up. *)
Fixpoint star_loop (body : matcher) (g : bool) (k : cont) (fuel : nat)
  (p : nat) (s : string) (c : caps) {struct fuel} : option mres :=
  match fuel with
  | 0 => k p s c
  | S f =>
      let again : cont := fun p' s' c' =>
        if String.length s' <? String.length s
        then star_loop body g k f p' s' c' else None in
      if g then
        match body p s c again with
        | Some x => Some x
        | None => k p s c
        end
      else
        match k p s c with
        | Some x => Some x
        | None => body p s c again
        end
  end.

(** The backtracking matcher, in continuation-passing style: [m ci r p s
    c k] matches [r] at position [p], where [s] is the text from [p] on,
    and hands what is left to [k]; alternatives are tried in the order
    in which [re] tries them and the first success is returned. *)
Fixpoint m (ci : bool) (r : regex) (p : nat) (s : string) (c : caps)
  (k : cont) {struct r} : option mres :=
  match r with
  | Eps => k p s c
  | Chr cs =>
      match s with
      | String a s' => if cset_mem ci cs a then k (S p) s' c else None
      | EmptyString => None
      end
  | Seq r1 r2 => m ci r1 p s c (fun p' s' c' => m ci r2 p' s' c' k)
  | Alt r1 r2 =>
      match m ci r1 p s c k with
      | Some x => Some x
      | None => m ci r2 p s c k
      end
  | Star g r' => star_loop (m ci r') g k (S (String.length s)) p s c
  | Group g r' =>
      m ci r' p s c (fun p' s' c' => k p' s' ((g, (p, p')) :: c'))
  | Look positive r' =>
      match m ci r' p s c (fun p' s' c' => Some (p', s', c')) with
      | Some (_, _, c') => if positive then k p s c' else None
      | None => if positive then None else k p s c
      end
  | Bol => if Nat.eqb p 0 then k p s c else None
  | Eol =>
      match s with
      | EmptyString => k p s c
      | String a EmptyString => if Ascii.eqb a Str.nl then k p s c else None
      | _ => None
      end
  end.

Definition k_done : cont := fun p s c => Some (p, s, c).

(** *** Reading a pattern

    The syntax the module's patterns are written in: literals, [\]
    escapes ([\w \d \s \S \xHH] and escaped punctuation), [.], [^], [$],
    classes [[...]] and [[^...]] (without ranges), groups [(...)],
    [(?:...)], [(?P<name>...)], lookahead [(?=...)] and [(?!...)],
    alternation and the quantifiers [* + ?] with their lazy forms. *)

Record pstate : Type := PState {
  ps_in : string;
  ps_next : nat;
  ps_names : list (string * nat)
}.

Definition hex_val (a : ascii) : option nat :=
  let n := nat_of_ascii a in
  if Str.is_digit a then Some (n - 48)
  else if (97 <=? n) && (n <=? 102) then Some (n - 87)
  else if (65 <=? n) && (n <=? 70) then Some (n - 55)
  else None.

(** What follows a backslash, as a set of characters. *)
Definition parse_escape (s : string) : option (cset * string) :=
  match s with
  | String "w" s' => Some (CWord, s')
  | String "d" s' => Some (CDigit, s')
  | String "s" s' => Some (CSpace, s')
  | String "S" s' => Some (CNot CSpace, s')
  | String "n" s' => Some (CLit Str.nl, s')
  | String "r" s' => Some (CLit Str.cr, s')
  | String "x" (String h1 (String h2 s')) =>
      match hex_val h1, hex_val h2 with
      | Some a, Some b => Some (CLit (ascii_of_nat (16 * a + b)), s')
      | _, _ => None
      end
  | String a s' => if Str.is_word a then None else Some (CLit a, s')
  | EmptyString => None
  end.

(** The items of a class up to its closing bracket. *)
Fixpoint parse_class (fuel : nat) (acc : cset) (s : string)
  : option (cset * string) :=
  match fuel with
  | 0 => None
  | S f =>
      match s with
      | String "]" s' => Some (acc, s')
      | String "\" s' =>
          match parse_escape s' with
          | Some (c, s'') => parse_class f (COr acc c) s''
          | None => None
          end
      | String a s' => parse_class f (COr acc (CLit a)) s'
      | EmptyString => None
      end
  end.

Definition read_name (s : string) : option (string * string) :=
  match String.index 0 ">" s with
  | Some i => Some (Str.take i s, Str.drop (S i) s)
  | None => None
  end.

(** A quantifier after the item [r], if there is one. *)
Definition parse_quant (r : regex) (s : string) : regex * string :=
  match s with
  | String "*" (String "?" s') => (Star false r, s')
  | String "*" s' => (Star true r, s')
  | String "+" (String "?" s') => (Seq r (Star false r), s')
  | String "+" s' => (Seq r (Star true r), s')
  | String "?" (String "?" s') => (Alt Eps r, s')
  | String "?" s' => (Alt r Eps, s')
  | _ => (r, s)
  end.

Definition expect_close (x : option (regex * pstate))
  (f : regex -> regex) : option (regex * pstate) :=
  match x with
  | Some (r, st) =>
      match ps_in st with
      | String ")" s' => Some (f r, PState s' (ps_next st) (ps_names st))
      | _ => None
      end
  | None => None
  end.

Fixpoint parse_alt (fuel : nat) (st : pstate) : option (regex * pstate) :=
  match fuel with
  | 0 => None
  | S f =>
      match parse_seq f st with
      | Some (r1, st1) =>
          match ps_in st1 with
          | String "|" s' =>
              match parse_alt f (PState s' (ps_next st1) (ps_names st1)) with
              | Some (r2, st2) => Some (Alt r1 r2, st2)
              | None => None
              end
          | _ => Some (r1, st1)
          end
      | None => None
      end
  end
with parse_seq (fuel : nat) (st : pstate) : option (regex * pstate) :=
  match fuel with
  | 0 => None
  | S f =>
      match ps_in st with
      | EmptyString | String "|" _ | String ")" _ => Some (Eps, st)
      | _ =>
          match parse_atom f st with
          | Some (a, st1) =>
              let (a', s') := parse_quant a (ps_in st1) in
              match parse_seq f (PState s' (ps_next st1) (ps_names st1)) with
              | Some (r, st2) => Some (Seq a' r, st2)
              | None => None
              end
          | None => None
          end
      end
  end
with parse_atom (fuel : nat) (st : pstate) : option (regex * pstate) :=
  match fuel with
  | 0 => None
  | S f =>
      let n := ps_next st in
      let ns := ps_names st in
      match ps_in st with
      | String "(" (String "?" (String ":" s')) =>
          expect_close (parse_alt f (PState s' n ns)) (fun r => r)
      | String "(" (String "?" (String "=" s')) =>
          expect_close (parse_alt f (PState s' n ns)) (Look true)
      | String "(" (String "?" (String "!" s')) =>
          expect_close (parse_alt f (PState s' n ns)) (Look false)
      | String "(" (String "?" (String "P" (String "<" s'))) =>
          match read_name s' with
          | Some (name, s'') =>
              expect_close
                (parse_alt f (PState s'' (S n) ((name, n) :: ns)%list))
                (Group n)
          | None => None
          end
      | String "(" (String "?" _) => None
      | String "(" s' =>
          expect_close (parse_alt f (PState s' (S n) ns)) (Group n)
      | String "[" (String "^" s') =>
          match parse_class (S (String.length s')) CNone s' with
          | Some (c, s'') => Some (Chr (CNot c), PState s'' n ns)
          | None => None
          end
      | String "[" s' =>
          match parse_class (S (String.length s')) CNone s' with
          | Some (c, s'') => Some (Chr c, PState s'' n ns)
          | None => None
          end
      | String "\" s' =>
          match parse_escape s' with
          | Some (c, s'') => Some (Chr c, PState s'' n ns)
          | None => None
          end
      | String "." s' => Some (Chr CDot, PState s' n ns)
      | String "^" s' => Some (Bol, PState s' n ns)
      | String "$" s' => Some (Eol, PState s' n ns)
      | String "*" _ | String "+" _ | String "?" _ | String ")" _
      | EmptyString => None
      | String a s' => Some (Chr (CLit a), PState s' n ns)
      end
  end.

(** A compiled pattern: [re.compile(regex, flags)]. *)
Record pattern : Type := Pattern {
  pat_ast : regex;
  pat_ci : bool;
  pat_groups : nat;
  pat_names : list (string * nat)
}.

Definition compile (ci : bool) (src : string) : option pattern :=
  match parse_alt (2 * String.length src + 2) (PState src 1 []) with
  | Some (r, PState EmptyString n ns) => Some (Pattern r ci (n - 1) (rev ns))
  | _ => None
  end.

(** *** Match objects and the operations of a compiled pattern *)

Record match_obj : Type := Match {
  mo_string : string;              (* the text searched *)
  mo_start : nat;
  mo_end : nat;
  mo_caps : caps;
  mo_names : list (string * nat)
}.

(** [m.group(0)] *)
Definition group0 (mo : match_obj) : string :=
  Str.slice (mo_start mo) (mo_end mo) (mo_string mo).

(** [m.group(n)]: [None] when the group took no part in the match. *)
Definition group_n (mo : match_obj) (g : nat) : option string :=
  match cap_get g (mo_caps mo) with
  | Some (a, b) => Some (Str.slice a b (mo_string mo))
  | None => None
  end.

Fixpoint name_get (name : string) (ns : list (string * nat)) : option nat :=
  match ns with
  | [] => None
  | (n, g) :: ns' => if String.eqb name n then Some g else name_get name ns'
  end.

(** [m.group(name)] *)
Definition group (mo : match_obj) (name : string) : option string :=
  match name_get name (mo_names mo) with
  | Some g => group_n mo g
  | None => None
  end.

(** [m.groupdict()] *)
Definition groupdict (mo : match_obj) : list (string * option string) :=
  map (fun ng => (fst ng, group_n mo (snd ng))) (mo_names mo).

(** The pattern tried at position [p] of [whole], [s] being the text
    from [p] on. *)
Definition match_at (P : pattern) (whole : string) (p : nat) (s : string)
  : option match_obj :=
  match m (pat_ci P) (pat_ast P) p s [] k_done with
  | Some (e, _, c) => Some (Match whole p e c (pat_names P))
  | None => None
  end.

(** [P.match(s)] *)
Definition re_match (P : pattern) (s : string) : option match_obj :=
  match_at P s 0 s.

Fixpoint search_from (P : pattern) (whole : string) (p : nat) (s : string)
  : option match_obj :=
  match match_at P whole p s with
  | Some mo => Some mo
  | None =>
      match s with
      | EmptyString => None
      | String _ s' => search_from P whole (S p) s'
      end
  end.

(** [P.search(s)] *)
Definition search (P : pattern) (s : string) : option match_obj :=
  search_from P s 0 s.

(** The successive matches of [P.finditer(s)]: each search resumes where
    the previous match ended, one character further after an empty
    match. *)
Fixpoint finditer_from (fuel : nat) (P : pattern) (whole : string)
  (p : nat) (s : string) : list match_obj :=
  match fuel with
  | 0 => []
  | S f =>
      match search_from P whole p s with
      | None => []
      | Some mo =>
          if mo_end mo =? mo_start mo then
            match Str.drop (mo_start mo - p) s with
            | EmptyString => [mo]
            | String _ s' => mo :: finditer_from f P whole (S (mo_start mo)) s'
            end
          else
            mo :: finditer_from f P whole (mo_end mo)
                    (Str.drop (mo_end mo - p) s)
      end
  end.

Definition finditer (P : pattern) (s : string) : list match_obj :=
  finditer_from (S (String.length s)) P s 0 s.

(** [P.findall(s)] for a pattern without groups. *)
Definition findall (P : pattern) (s : string) : list string :=
  map group0 (finditer P s).

(** [P.findall(s)] for a pattern with several groups: the tuple of its
    groups for each match, [""] for a group that took no part. *)
Definition findall_groups (P : pattern) (s : string) : list (list string) :=
  map (fun mo =>
         map (fun g => match group_n mo g with Some t => t | None => "" end)
             (seq 1 (pat_groups P)))
      (finditer P s).

(** The text of [whole] from [p] on with the matches replaced. *)
Fixpoint sub_from (repl whole : string) (p : nat) (ms : list match_obj)
  : string :=
  match ms with
  | [] => Str.drop p whole
  | mo :: ms' =>
      Str.slice p (mo_start mo) whole ++ repl ++ sub_from repl whole (mo_end mo) ms'
  end.

(** [P.sub(repl, s)] for a replacement without group references. *)
Definition sub (P : pattern) (repl s : string) : string :=
  sub_from repl s 0 (finditer P s).

Fixpoint split_from (whole : string) (p : nat) (ms : list match_obj)
  : list string :=
  match ms with
  | [] => [Str.drop p whole]
  | mo :: ms' =>
      if mo_end mo =? mo_start mo then split_from whole p ms'
      else Str.slice p (mo_start mo) whole :: split_from whole (mo_end mo) ms'
  end.

(** [re.split(P, s)] for a pattern without groups. *)
Definition split (P : pattern) (s : string) : list string :=
  split_from s 0 (finditer P s).

(** [re.escape(s)] *)
Fixpoint escape (s : string) : string :=
  match s with
  | EmptyString => EmptyString
  | String a s' =>
      if Str.is_word a then String a (escape s')
      else String "\" (String a (escape s'))
  end.

End Re.

(** ** [%]-formatting of a template with a mapping: [tmpl % kw] *)

Module Fmt.

Fixpoint kw_get (k : string) (kw : list (string * string)) : string :=
  match kw with
  | [] => ""
  | (k', v) :: kw' => if String.eqb k k' then v else kw_get k kw'
  end.

(** Each [%(key)s] of the template is replaced by [kw[key]]. *)
Fixpoint percent_fuel (fuel : nat) (tmpl : string) (kw : list (string * string))
  : string :=
  match fuel with
  | 0 => tmpl
  | S f =>
      match tmpl with
      | String "%" (String "(" t) =>
          match String.index 0 ")s" t with
          | Some i =>
              kw_get (Str.take i t) kw ++ percent_fuel f (Str.drop (i + 2) t) kw
          | None => tmpl
          end
      | String a t => String a (percent_fuel f t kw)
      | EmptyString => EmptyString
      end
  end.

Definition percent (tmpl : string) (kw : list (string * string)) : string :=
  percent_fuel (S (String.length tmpl)) tmpl kw.

(** [tmpl % (a, b, ...)]: each [%s] takes the next argument. *)
Fixpoint percent_s (tmpl : string) (args : list string) : string :=
  match tmpl with
  | String "%" (String "s" t) =>
      match args with
      | a :: args' => a ++ percent_s t args'
      | [] => tmpl
      end
  | String a t => String a (percent_s t args)
  | EmptyString => EmptyString
  end.

End Fmt.

(** ** Python values *)

(** The MySQL column types of the dialect's type registry, with
    [NullType] for a name the registry does not have. *)
Inductive col_type : Type :=
| BIGINT | BINARY | BIT | BLOB | BOOLEAN | CHAR | DATE | DATETIME
| DECIMAL | DOUBLE | ENUM | FLOAT | INTEGER | JSON | LONGBLOB | LONGTEXT
| MEDIUMBLOB | MEDIUMINT | MEDIUMTEXT | NCHAR | NVARCHAR | NUMERIC | SET
| SMALLINT | TEXT | TIME | TIMESTAMP | TINYBLOB | TINYINT | TINYTEXT
| VARBINARY | VARCHAR | YEAR | NullType.

(** The values the parser handles: [None], booleans, integers, strings,
    lists and tuples, dicts with string keys (in insertion order), and
    type objects [cls( *args, **kw)]. *)
Inductive pyval : Type :=
| VNone
| VBool (b : bool)
| VInt (n : nat)
| VStr (s : string)
| VList (l : list pyval)
| VDict (d : list (string * pyval))
| VType (cls : col_type) (args : list pyval) (kw : list (string * pyval)).

Definition dict : Type := list (string * pyval).

(** [d.get(k)] as an option: [None] when [k] is not a key. *)
Fixpoint dict_find (k : string) (d : dict) : option pyval :=
  match d with
  | [] => None
  | (k', v) :: d' => if String.eqb k k' then Some v else dict_find k d'
  end.

(** [d.get(k, default)] *)
Definition dict_get (k : string) (default : pyval) (d : dict) : pyval :=
  match dict_find k d with Some v => v | None => default end.

(** [d[k] = v]: an existing key keeps its place. *)
Fixpoint dict_set (k : string) (v : pyval) (d : dict) : dict :=
  match d with
  | [] => [(k, v)]
  | (k', v') :: d' =>
      if String.eqb k k' then (k, v) :: d' else (k', v') :: dict_set k v d'
  end.

(** [d.pop(k, None)], the value dropped. *)
Fixpoint dict_pop (k : string) (d : dict) : dict :=
  match d with
  | [] => []
  | (k', v') :: d' =>
      if String.eqb k k' then d' else (k', v') :: dict_pop k d'
  end.

(** [d.update(e)] *)
Definition dict_update (d e : dict) : dict :=
  fold_left (fun acc kv => dict_set (fst kv) (snd kv) acc) e d.

(** Truth value of a Python value. *)
Definition truthy (v : pyval) : bool :=
  match v with
  | VNone => false
  | VBool b => b
  | VInt n => negb (n =? 0)
  | VStr s => Str.truthy s
  | VList l => match l with [] => false | _ => true end
  | VDict d => match d with [] => false | _ => true end
  | VType _ _ _ => true
  end.

(** [v == s] for a string [s] *)
Definition eq_str (v : pyval) (s : string) : bool :=
  match v with VStr t => String.eqb t s | _ => false end.

Definition is_none (v : pyval) : bool :=
  match v with VNone => true | _ => false end.

(** A group of a match as a value: [None] when it took no part. *)
Definition of_group (g : option string) : pyval :=
  match g with Some t => VStr t | None => VNone end.

(** [m.groupdict()] as a dict. *)
Definition groupdict (mo : Re.match_obj) : dict :=
  map (fun kg => (fst kg, of_group (snd kg))) (Re.groupdict mo).

(** ** Warnings and exceptions *)

(** What [util.warn] is called with. *)
Inductive warning : Type :=
| UnknownSchemaContent (line : string)
| UnknownColumnDefinition (line : string)
| IncompleteReflection (line : string)
| UnrecognizedType (type_ name : pyval).

Inductive exn : Type := TypeError | KeyError | IndexError | AttributeError.

(** A computation that may warn and may raise: the warnings emitted, in
    order, and either the exception or the value. *)
Definition M (A : Type) : Type := (list warning * (exn + A))%type.

Definition ret {A} (a : A) : M A := ([], inr a).
Definition raise {A} (e : exn) : M A := ([], inl e).
Definition warn (w : warning) : M unit := ([w], inr tt).
Definition bind {A B} (x : M A) (f : A -> M B) : M B :=
  match x with
  | (ws, inl e) => (ws, inl e)
  | (ws, inr a) => let (ws', r) := f a in ((ws ++ ws')%list, r)
  end.

Notation "x <- c1 ;; c2" := (bind c1 (fun x => c2))
  (at level 61, c1 at next level, right associativity).
Notation "c1 ;;; c2" := (bind c1 (fun _ => c2))
  (at level 61, right associativity).

(** A [for] loop over [l] that threads [a] through its body. *)
Fixpoint foldM {A B} (f : A -> B -> M A) (l : list B) (a : A) : M A :=
  match l with
  | [] => ret a
  | b :: l' => a' <- f a b ;; foldM f l' a'
  end.

(** A value used where only a [str] has the method or item asked for. *)
Definition as_str (e : exn) (v : pyval) : M string :=
  match v with VStr s => ret s | _ => raise e end.

(** [d[k]] *)
Definition getitem (d : dict) (k : string) : M pyval :=
  match dict_find k d with Some v => ret v | None => raise KeyError end.

(** ** The collaborators of the parser *)

(** Modelled from the spec: the identifier preparer of the dialect (the
    quoting convention), which is not part of this module: the initial
    and final quote characters, the escaping of the final quote inside
    an identifier by doubling it and its inverse, and the identifier
    quoted in full. *)
Record IdentifierPreparer : Type := {
  initial_quote : string;
  final_quote : string
}.

Definition _escape_identifier (pr : IdentifierPreparer) (value : string)
  : string :=
  Str.replace (final_quote pr) (final_quote pr ++ final_quote pr) value.

Definition _unescape_identifier (pr : IdentifierPreparer) (value : string)
  : string :=
  Str.replace (final_quote pr ++ final_quote pr) (final_quote pr) value.


(** Modelled from the spec: the pattern with which the preparer splits a
    possibly schema-qualified, quoted identifier into its parts. *)
Definition _r_identifiers (pr : IdentifierPreparer) : option Re.pattern :=
  Re.compile true
    (Fmt.percent
       ("(?:"
        ++ "(?:%(initial)s((?:%(escaped)s|[^%(final)s])+)%(final)s"
        ++ "|([^\.]+))(?=\.|$))+")
       [("initial", Re.escape (initial_quote pr));
        ("final", Re.escape (final_quote pr));
        ("escaped", Re.escape (_escape_identifier pr (final_quote pr)))]).

(** [a or b] on the two groups of a match of [_r_identifiers]. *)
Definition first_nonempty (t : list string) : string :=
  match t with
  | a :: b :: _ => if Str.truthy a then a else b
  | _ => ""
  end.

Definition unformat_identifiers (pr : IdentifierPreparer)
  (identifiers : string) : list string :=
  match _r_identifiers pr with
  | Some r =>
      map (fun t => _unescape_identifier pr (first_nonempty t))
          (Re.findall_groups r identifiers)
  | None => []
  end.

(** MySQL's quoting, and the quoting under [ANSI_QUOTES]. *)
Definition backtick_preparer : IdentifierPreparer :=
  {| initial_quote := "`"; final_quote := "`" |}.
Definition ansi_preparer : IdentifierPreparer :=
  {| initial_quote := String Str.dquote ""; final_quote := String Str.dquote "" |}.

(** Modelled from the spec: the dialect, which is not part of this
    module, as far as the parser uses it: its name and its type
    registry, a mapping from the bare type name, whatever its case, to
    the type. *)
Record Dialect : Type := {
  dialect_name : string;
  ischema_names : list (string * col_type)
}.

Fixpoint registry_find (k : string) (d : list (string * col_type))
  : option col_type :=
  match d with
  | [] => None
  | (k', v) :: d' => if String.eqb k k' then Some v else registry_find k d'
  end.

(** [dialect.ischema_names[type_]], [None] standing for [KeyError]. *)
Definition ischema_lookup (d : Dialect) (type_ : pyval) : option col_type :=
  match type_ with
  | VStr t => registry_find (Str.lower t) (ischema_names d)
  | _ => None
  end.

Definition mysql_dialect : Dialect := {|
  dialect_name := "mysql";
  ischema_names :=
    [("bigint", BIGINT); ("binary", BINARY); ("bit", BIT); ("blob", BLOB);
     ("boolean", BOOLEAN); ("char", CHAR); ("date", DATE);
     ("datetime", DATETIME); ("decimal", DECIMAL); ("double", DOUBLE);
     ("enum", ENUM); ("fixed", DECIMAL); ("float", FLOAT); ("int", INTEGER);
     ("integer", INTEGER); ("json", JSON); ("longblob", LONGBLOB);
     ("longtext", LONGTEXT); ("mediumblob", MEDIUMBLOB);
     ("mediumint", MEDIUMINT); ("mediumtext", MEDIUMTEXT); ("nchar", NCHAR);
     ("nvarchar", NVARCHAR); ("numeric", NUMERIC); ("set", SET);
     ("smallint", SMALLINT); ("text", TEXT); ("time", TIME);
     ("timestamp", TIMESTAMP); ("tinyblob", TINYBLOB); ("tinyint", TINYINT);
     ("tinytext", TINYTEXT); ("varbinary", VARBINARY); ("varchar", VARCHAR);
     ("year", YEAR)]
|}.

(** Modelled from the spec: the family predicates of the type registry,
    which the parser asks with [issubclass]. *)

(** [issubclass(t, (DATETIME, TIME, TIMESTAMP))] *)
Definition is_fsp_type (t : col_type) : bool :=
  match t with DATETIME | TIME | TIMESTAMP => true | _ => false end.

(** [issubclass(t, (ENUM, SET))] *)
Definition is_enum_or_set (t : col_type) : bool :=
  match t with ENUM | SET => true | _ => false end.

(** [issubclass(t, SET)] *)
Definition is_set (t : col_type) : bool :=
  match t with SET => true | _ => false end.

(** [issubclass(t, sqltypes.Integer)] *)
Definition is_integer (t : col_type) : bool :=
  match t with
  | BIGINT | INTEGER | MEDIUMINT | SMALLINT | TINYINT => true
  | _ => false
  end.

(** ** [MySQLTableDefinitionParser] *)

(** The callable paired with a pattern by [_pr_compile]: none, the
    preparer's [_unescape_identifier], or the un-escaping of a quoted
    string value, [lambda v: v.replace("\\\\", "\\").replace("''", "'")]. *)
Inductive cleanup : Type := NoCleanup | UnescapeIdentifier | UnquoteString.

(** The object after [__init__]: the collaborators and the patterns
    that [_prep_regexes] compiles. *)
Record MySQLTableDefinitionParser : Type := {
  dialect : Dialect;
  preparer : IdentifierPreparer;
  _pr_name : Re.pattern * cleanup;
  _re_keyexprs : Re.pattern;
  _re_csv_str : Re.pattern;
  _re_csv_int : Re.pattern;
  _re_column : Re.pattern;
  _re_column_loose : Re.pattern;
  _re_key : Re.pattern;
  _re_key_version_sql : Re.pattern;
  _re_fk_constraint : Re.pattern;
  _re_ck_constraint : Re.pattern;
  _re_partition : Re.pattern;
  _pr_options : list (Re.pattern * cleanup)
}.

(** [re.compile(regex, re.I | re.UNICODE)] *)
Definition _re_compile (regex : string) : option Re.pattern :=
  Re.compile true regex.

Definition _pr_compile (regex : string) (c : cleanup)
  : option (Re.pattern * cleanup) :=
  match _re_compile regex with
  | Some r => Some (r, c)
  | None => None
  end.

Definition _options_of_type_string : list string :=
  ["COMMENT"; "DATA DIRECTORY"; "INDEX DIRECTORY"; "PASSWORD"; "CONNECTION"].

Definition _optional_equals : string := "(?:\s*(?:=\s*)|\s+)".

Definition _add_option_string (directive : string)
  : option (Re.pattern * cleanup) :=
  _pr_compile
    (Fmt.percent_s
       ("(?P<directive>%s)%s" ++ "'(?P<val>(?:[^']|'')*?)'(?!')")
       [Re.escape directive; _optional_equals])
    UnquoteString.

Definition _add_option_word (directive : string)
  : option (Re.pattern * cleanup) :=
  _pr_compile
    (Fmt.percent_s
       ("(?P<directive>%s)%s" ++ "(?P<val>\w+)")
       [Re.escape directive; _optional_equals])
    NoCleanup.

Definition _add_option_regex (directive regex : string)
  : option (Re.pattern * cleanup) :=
  _pr_compile
    (Fmt.percent_s
       ("(?P<directive>%s)%s" ++ "(?P<val>%s)")
       [Re.escape directive; _optional_equals; regex])
    NoCleanup.

(** All of a list of optional results, or nothing. *)
Fixpoint all_some {A} (l : list (option A)) : option (list A) :=
  match l with
  | [] => Some []
  | Some a :: l' =>
      match all_some l' with Some r => Some (a :: r) | None => None end
  | None :: _ => None
  end.

Definition option_bind {A B} (x : option A) (f : A -> option B) : option B :=
  match x with Some a => f a | None => None end.

Notation "'let?' x := c1 'in' c2" := (option_bind c1 (fun x => c2))
  (at level 10, x pattern, c1 at level 100, c2 at level 200).

(** The option patterns in the order in which they are registered. *)
Definition _prep_options : option (list (Re.pattern * cleanup)) :=
  all_some
    (map _add_option_string _options_of_type_string
     ++ map _add_option_word
          ["ENGINE"; "TYPE"; "AUTO_INCREMENT"; "AVG_ROW_LENGTH";
           "CHARACTER SET"; "DEFAULT CHARSET"; "CHECKSUM"; "COLLATE";
           "DELAY_KEY_WRITE"; "INSERT_METHOD"; "MAX_ROWS"; "MIN_ROWS";
           "PACK_KEYS"; "ROW_FORMAT"; "KEY_BLOCK_SIZE"]
     ++ [_add_option_regex "UNION" "\([^\)]+\)";
         _add_option_regex "TABLESPACE" ".*? STORAGE DISK";
         _add_option_regex "RAID_TYPE"
           "\w+\s+RAID_CHUNKS\s*\=\s*\w+RAID_CHUNKSIZE\s*=\s*\w+"])%list.

(** [__init__] with [_prep_regexes]; [None] when a pattern does not
    compile. *)
Definition quotes (preparer : IdentifierPreparer) : list (string * string) :=
  let _final := final_quote preparer in
  [("iq", Re.escape (initial_quote preparer));
   ("fq", Re.escape _final);
   ("esc_fq", Re.escape (_escape_identifier preparer _final))].

Definition quotes_on (preparer : IdentifierPreparer)
  : list (string * string) :=
  (quotes preparer ++ [("on", "RESTRICT|CASCADE|SET NULL|NO ACTION")])%list.

Definition __init__ (dialect : Dialect) (preparer : IdentifierPreparer)
  : option MySQLTableDefinitionParser :=
  let quotes := quotes preparer in
  let kw := quotes_on preparer in
  let? pr_name :=
    _pr_compile
      (Fmt.percent
         ("^CREATE (?:\w+ +)?TABLE +"
          ++ "%(iq)s(?P<name>(?:%(esc_fq)s|[^%(fq)s])+)%(fq)s +\($") quotes)
      UnescapeIdentifier in
  let? re_keyexprs :=
    _re_compile
      (Fmt.percent
         ("(?:"
          ++ "(?:%(iq)s((?:%(esc_fq)s|[^%(fq)s])+)%(fq)s)"
          ++ "(?:\((\d+)\))?(?: +(ASC|DESC))?(?=\,|$))+") quotes) in
  let? re_csv_str := _re_compile "\x27(?:\x27\x27|[^\x27])*\x27" in
  let? re_csv_int := _re_compile "\d+" in
  let? re_column :=
    _re_compile
      (Fmt.percent
         ("  "
          ++ "%(iq)s(?P<name>(?:%(esc_fq)s|[^%(fq)s])+)%(fq)s +"
          ++ "(?P<coltype>\w+)"
          ++ "(?:\((?P<arg>(?:\d+|\d+,\d+|"
          ++ "(?:'(?:''|[^'])*',?)+))\))?"
          ++ "(?: +(?P<unsigned>UNSIGNED))?"
          ++ "(?: +(?P<zerofill>ZEROFILL))?"
          ++ "(?: +CHARACTER SET +(?P<charset>[\w_]+))?"
          ++ "(?: +COLLATE +(?P<collate>[\w_]+))?"
          ++ "(?: +(?P<notnull>(?:NOT )?NULL))?"
          ++ "(?: +DEFAULT +(?P<default>"
          ++ "(?:NULL|'(?:''|[^'])*'|[\w\.\(\)]+"
          ++ "(?: +ON UPDATE [\w\.\(\)]+)?)"
          ++ "))?"
          ++ "(?: +(?:GENERATED ALWAYS)? ?AS +(?P<generated>\("
          ++ ".*\))? ?(?P<persistence>VIRTUAL|STORED)?)?"
          ++ "(?: +(?P<autoincr>AUTO_INCREMENT))?"
          ++ "(?: +COMMENT +'(?P<comment>(?:''|[^'])*)')?"
          ++ "(?: +COLUMN_FORMAT +(?P<colfmt>\w+))?"
          ++ "(?: +STORAGE +(?P<storage>\w+))?"
          ++ "(?: +(?P<extra>.*))?"
          ++ ",?$") quotes) in
  let? re_column_loose :=
    _re_compile
      (Fmt.percent
         ("  "
          ++ "%(iq)s(?P<name>(?:%(esc_fq)s|[^%(fq)s])+)%(fq)s +"
          ++ "(?P<coltype>\w+)"
          ++ "(?:\((?P<arg>(?:\d+|\d+,\d+|\x27(?:\x27\x27|[^\x27])+\x27))\))?"
          ++ ".*?(?P<notnull>(?:NOT )NULL)?") quotes) in
  let? re_key :=
    _re_compile
      (Fmt.percent
         ("  "
          ++ "(?:(?P<type>\S+) )?KEY"
          ++ "(?: +%(iq)s(?P<name>(?:%(esc_fq)s|[^%(fq)s])+)%(fq)s)?"
          ++ "(?: +USING +(?P<using_pre>\S+))?"
          ++ " +\((?P<columns>.+?)\)"
          ++ "(?: +USING +(?P<using_post>\S+))?"
          ++ "(?: +KEY_BLOCK_SIZE *[ =]? *(?P<keyblock>\S+))?"
          ++ "(?: +WITH PARSER +(?P<parser>\S+))?"
          ++ "(?: +COMMENT +(?P<comment>(\x27\x27|\x27([^\x27])*?\x27)+))?"
          ++ "(?: +/\*(?P<version_sql>.+)\*/ +)?"
          ++ ",?$") quotes) in
  let? re_key_version_sql :=
    _re_compile ("\!\d+ " ++ "(?: *WITH PARSER +(?P<parser>\S+) *)?") in
  let? re_fk_constraint :=
    _re_compile
      (Fmt.percent
         ("  "
          ++ "CONSTRAINT +"
          ++ "%(iq)s(?P<name>(?:%(esc_fq)s|[^%(fq)s])+)%(fq)s +"
          ++ "FOREIGN KEY +"
          ++ "\((?P<local>[^\)]+?)\) REFERENCES +"
          ++ "(?P<table>%(iq)s[^%(fq)s]+%(fq)s"
          ++ "(?:\.%(iq)s[^%(fq)s]+%(fq)s)?) +"
          ++ "\((?P<foreign>[^\)]+?)\)"
          ++ "(?: +(?P<match>MATCH \w+))?"
          ++ "(?: +ON DELETE (?P<ondelete>%(on)s))?"
          ++ "(?: +ON UPDATE (?P<onupdate>%(on)s))?") kw) in
  let? re_ck_constraint :=
    _re_compile
      (Fmt.percent
         ("  "
          ++ "CONSTRAINT +"
          ++ "%(iq)s(?P<name>(?:%(esc_fq)s|[^%(fq)s])+)%(fq)s +"
          ++ "CHECK +"
          ++ "\((?P<sqltext>.+)\),?") kw) in
  let? re_partition := _re_compile "(?:.*)(?:SUB)?PARTITION(?:.*)" in
  let? pr_options := _prep_options in
  Some {| dialect := dialect; preparer := preparer;
          _pr_name := pr_name; _re_keyexprs := re_keyexprs;
          _re_csv_str := re_csv_str; _re_csv_int := re_csv_int;
          _re_column := re_column; _re_column_loose := re_column_loose;
          _re_key := re_key; _re_key_version_sql := re_key_version_sql;
          _re_fk_constraint := re_fk_constraint;
          _re_ck_constraint := re_ck_constraint;
          _re_partition := re_partition; _pr_options := pr_options |}.


(** The two parsers the properties are stated for: MySQL's own quoting
    and [ANSI_QUOTES], each with its patterns compiled once. *)
Definition no_pattern : Re.pattern := Re.Pattern (Re.Chr Re.CNone) true 0 [].

Definition no_parser (d : Dialect) (pr : IdentifierPreparer)
  : MySQLTableDefinitionParser :=
  {| dialect := d; preparer := pr;
     _pr_name := (no_pattern, NoCleanup); _re_keyexprs := no_pattern;
     _re_csv_str := no_pattern; _re_csv_int := no_pattern;
     _re_column := no_pattern; _re_column_loose := no_pattern;
     _re_key := no_pattern; _re_key_version_sql := no_pattern;
     _re_fk_constraint := no_pattern; _re_ck_constraint := no_pattern;
     _re_partition := no_pattern; _pr_options := [] |}.

Definition mysql_parser : MySQLTableDefinitionParser :=
  Eval vm_compute in
    match __init__ mysql_dialect backtick_preparer with
    | Some p => p
    | None => no_parser mysql_dialect backtick_preparer
    end.

Definition ansi_parser : MySQLTableDefinitionParser :=
  Eval vm_compute in
    match __init__ mysql_dialect ansi_preparer with
    | Some p => p
    | None => no_parser mysql_dialect ansi_preparer
    end.

(** ** [ReflectedState] *)

Record ReflectedState : Type := {
  columns : list pyval;
  table_options : dict;
  table_name : pyval;
  keys : list pyval;
  fk_constraints : list pyval;
  ck_constraints : list pyval;
  charset : pyval
}.

(** [ReflectedState()] followed by [state.charset = charset]. *)
Definition new_state (charset : pyval) : ReflectedState :=
  {| columns := []; table_options := []; table_name := VNone; keys := [];
     fk_constraints := []; ck_constraints := []; charset := charset |}.

Definition set_columns (st : ReflectedState) (v : list pyval) :=
  {| columns := v; table_options := table_options st;
     table_name := table_name st; keys := keys st;
     fk_constraints := fk_constraints st;
     ck_constraints := ck_constraints st; charset := charset st |}.
Definition set_table_options (st : ReflectedState) (v : dict) :=
  {| columns := columns st; table_options := v;
     table_name := table_name st; keys := keys st;
     fk_constraints := fk_constraints st;
     ck_constraints := ck_constraints st; charset := charset st |}.
Definition set_table_name (st : ReflectedState) (v : pyval) :=
  {| columns := columns st; table_options := table_options st;
     table_name := v; keys := keys st;
     fk_constraints := fk_constraints st;
     ck_constraints := ck_constraints st; charset := charset st |}.
Definition set_keys (st : ReflectedState) (v : list pyval) :=
  {| columns := columns st; table_options := table_options st;
     table_name := table_name st; keys := v;
     fk_constraints := fk_constraints st;
     ck_constraints := ck_constraints st; charset := charset st |}.
Definition set_fk_constraints (st : ReflectedState) (v : list pyval) :=
  {| columns := columns st; table_options := table_options st;
     table_name := table_name st; keys := keys st;
     fk_constraints := v;
     ck_constraints := ck_constraints st; charset := charset st |}.
Definition set_ck_constraints (st : ReflectedState) (v : list pyval) :=
  {| columns := columns st; table_options := table_options st;
     table_name := table_name st; keys := keys st;
     fk_constraints := fk_constraints st;
     ck_constraints := v; charset := charset st |}.

(** ** The methods of the parser *)

Section Methods.

Variable self : MySQLTableDefinitionParser.

(** [cleanup(value)] for the callable paired with a pattern; without a
    callable the value is kept. *)
Definition apply_cleanup (c : cleanup) (value : string) : string :=
  match c with
  | NoCleanup => value
  | UnescapeIdentifier => _unescape_identifier (preparer self) value
  | UnquoteString => Str.replace "''" "'" (Str.replace "\\" "\" value)
  end.

(** One value of [_strip_values]: enclosing quotes stripped and the
    doubled quote inside undoubled. *)
Definition strip_value (a : string) : string :=
  let q := Str.slice 0 1 a in
  if String.eqb q (String Str.dquote "") || String.eqb q "'"
  then Str.replace (q ++ q) q (Str.slice 1 (String.length a - 1) a)
  else a.

(** [_strip_values(values)]; slicing a value that is not a [str] raises. *)
Fixpoint _strip_values (values : list pyval) : M (list pyval) :=
  match values with
  | [] => ret []
  | a :: values' =>
      a' <- as_str TypeError a ;;
      rest <- _strip_values values' ;;
      ret (VStr (strip_value a') :: rest)
  end.

(** [_parse_keyexprs(identifiers)]: the tuples of [findall]. *)
Definition _parse_keyexprs (identifiers : pyval) : M (list (list string)) :=
  s <- as_str TypeError identifiers ;;
  ret (Re.findall_groups (_re_keyexprs self) s).

Definition tuple_of (t : list string) : pyval := VList (map VStr t).

(** [c[0]] of a tuple of [_parse_keyexprs] *)
Definition tuple_first (t : list string) : pyval :=
  match t with a :: _ => VStr a | [] => VNone end.

(** [_parse_constraints(line)]: the kind of the line and what was parsed
    of it. *)
Definition _parse_constraints (line : string) : M (pyval * pyval) :=
  (* KEY *)
  match Re.re_match (_re_key self) line with
  | Some mo =>
      let spec := groupdict mo in
      cols <- getitem spec "columns" ;;
      cols <- _parse_keyexprs cols ;;
      let spec := dict_set "columns" (VList (map tuple_of cols)) spec in
      version_sql <- getitem spec "version_sql" ;;
      spec <-
        (if truthy version_sql then
           v <- as_str TypeError version_sql ;;
           match Re.re_match (_re_key_version_sql self) v with
           | Some m2 =>
               p <- getitem (groupdict m2) "parser" ;;
               ret (if truthy p then dict_set "parser" p spec else spec)
           | None => ret spec
           end
         else ret spec) ;;
      parser <- getitem spec "parser" ;;
      spec <-
        (if truthy parser then
           p <- as_str TypeError parser ;;
           match unformat_identifiers (preparer self) p with
           | i :: _ => ret (dict_set "parser" (VStr i) spec)
           | [] => raise IndexError
           end
         else ret spec) ;;
      ret (VStr "key", VDict spec)
  | None =>
  (* FOREIGN KEY CONSTRAINT *)
  match Re.re_match (_re_fk_constraint self) line with
  | Some mo =>
      let spec := groupdict mo in
      t <- getitem spec "table" ;;
      t <- as_str TypeError t ;;
      let spec :=
        dict_set "table"
          (VList (map VStr (unformat_identifiers (preparer self) t))) spec in
      l <- getitem spec "local" ;;
      l <- _parse_keyexprs l ;;
      let spec := dict_set "local" (VList (map tuple_first l)) spec in
      f <- getitem spec "foreign" ;;
      f <- _parse_keyexprs f ;;
      let spec := dict_set "foreign" (VList (map tuple_first f)) spec in
      ret (VStr "fk_constraint", VDict spec)
  | None =>
  (* CHECK constraint *)
  match Re.re_match (_re_ck_constraint self) line with
  | Some mo => ret (VStr "ck_constraint", VDict (groupdict mo))
  | None =>
  (* PARTITION and SUBPARTITION *)
  match Re.re_match (_re_partition self) line with
  | Some _ => ret (VStr "partition", VStr line)
  | None =>
  (* No match. *)
  ret (VNone, VStr line)
  end end end end.

(** [_parse_table_name(line, state)] *)
Definition _parse_table_name (line : string) (state : ReflectedState)
  : M ReflectedState :=
  let (regex, cleanup) := _pr_name self in
  match Re.re_match regex line with
  | Some mo =>
      n <- as_str TypeError (of_group (Re.group mo "name")) ;;
      ret (set_table_name state (VStr (apply_cleanup cleanup n)))
  | None => ret state
  end.

(** The body of the loop of [_parse_table_options] for one registered
    pattern, on the options found and the text not yet consumed. *)
Definition scan_option (acc : dict * string) (rc : Re.pattern * cleanup)
  : M (dict * string) :=
  let (options, rest_of_line) := acc in
  let (regex, cleanup) := rc in
  match Re.search regex rest_of_line with
  | None => ret acc
  | Some mo =>
      directive <- as_str AttributeError (of_group (Re.group mo "directive")) ;;
      value <- as_str TypeError (of_group (Re.group mo "val")) ;;
      let value := apply_cleanup cleanup value in
      ret (dict_set (Str.lower directive) (VStr value) options,
           Re.sub regex "" rest_of_line)
  end.

(** The options of a line: every registered pattern in turn. *)
Definition scan_options (line : string) : M dict :=
  if negb (Str.truthy line) || String.eqb line ")" then ret []
  else r <- foldM scan_option (_pr_options self) ([], line) ;; ret (fst r).

Definition nopes : list string :=
  ["auto_increment"; "data directory"; "index directory"].

(** [_parse_table_options(line, state)] *)
Definition _parse_table_options (line : string) (state : ReflectedState)
  : M ReflectedState :=
  options <- scan_options line ;;
  let options := fold_left (fun o nope => dict_pop nope o) nopes options in
  ret (set_table_options state
         (fold_left
            (fun t ov =>
               dict_set
                 (Fmt.percent_s "%s_%s" [dialect_name (dialect self); fst ov])
                 (snd ov) t)
            options (table_options state))).

(** The match of a column line: the full pattern, or else the loose
    one, with the flag [full] added to the groups. *)
Definition column_spec (line : string) : option dict :=
  match Re.re_match (_re_column self) line with
  | Some mo => Some (dict_set "full" (VBool true) (groupdict mo))
  | None =>
      match Re.re_match (_re_column_loose self) line with
      | Some mo => Some (dict_set "full" (VBool false) (groupdict mo))
      | None => None
      end
  end.

(** The type of the column: the registry's, or [NullType] with a
    warning. *)
Definition resolve_type (type_ name : pyval) : M col_type :=
  match ischema_lookup (dialect self) type_ with
  | Some t => ret t
  | None => warn (UnrecognizedType type_ name) ;;; ret NullType
  end.

(** Column type positional arguments eg. varchar(32) *)
Definition positional_args (args : pyval) : M (list pyval) :=
  match args with
  | VNone => ret []
  | VStr a =>
      if String.eqb a "" then ret []
      else
        match Str.first a, Str.last a with
        | Some "'"%char, Some "'"%char =>
            ret (map VStr (Re.findall (_re_csv_str self) a))
        | _, _ =>
            ret (map (fun v => VInt (Str.int v))
                     (Re.findall (_re_csv_int self) a))
        end
  | _ => raise TypeError
  end.

(** [type_kw["fsp"] = type_args.pop(0)] for the types that take
    fractional seconds: the arguments and keywords afterwards. *)
Definition take_fsp (col_type : col_type) (type_args : list pyval)
  : list pyval * dict :=
  if is_fsp_type col_type then
    match type_args with
    | a :: type_args' => (type_args', [("fsp", a)])
    | [] => ([], [])
    end
  else (type_args, []).

(** The flags and the names copied from the groups into the keywords. *)
Definition copy_flags (spec : dict) (type_kw : dict) : dict :=
  let type_kw :=
    fold_left
      (fun kw k =>
         if truthy (dict_get k (VBool false) spec)
         then dict_set k (VBool true) kw else kw)
      ["unsigned"; "zerofill"] type_kw in
  fold_left
    (fun kw k =>
       if truthy (dict_get k (VBool false) spec)
       then dict_set k (dict_get k VNone spec) kw else kw)
    ["charset"; "collate"] type_kw.

(** The values of an ENUM or SET stripped, and the SET with an empty
    value marked. *)
Definition strip_enum_set (col_type : col_type) (type_args : list pyval)
  (type_kw : dict) : M (list pyval * dict) :=
  if is_enum_or_set col_type then
    type_args <- _strip_values type_args ;;
    ret (type_args,
         if is_set col_type && existsb (fun v => eq_str v "") type_args
         then dict_set "retrieve_as_bitwise" (VBool true) type_kw
         else type_kw)
  else ret (type_args, type_kw).

(** [col_kw] with [nullable] and [autoincrement]. *)
Definition null_autoincr_kw (spec : dict) (col_type : col_type) : dict :=
  (* NOT NULL *)
  let col_kw := [("nullable", VBool true)] in
  (* this can be "NULL" in the case of TIMESTAMP *)
  let col_kw :=
    if eq_str (dict_get "notnull" (VBool false) spec) "NOT NULL"
    then dict_set "nullable" (VBool false) col_kw else col_kw in
  (* AUTO_INCREMENT *)
  if truthy (dict_get "autoincr" (VBool false) spec)
  then dict_set "autoincrement" (VBool true) col_kw
  else if is_integer col_type
       then dict_set "autoincrement" (VBool false) col_kw
       else col_kw.

(** [col_kw] with [computed] for a generated column. *)
Definition computed_kw (spec : dict) (col_kw : dict) : dict :=
  let sqltext := dict_get "generated" VNone spec in
  if is_none sqltext then col_kw
  else
    let computed := [("sqltext", sqltext)] in
    let persisted := dict_get "persistence" VNone spec in
    let computed :=
      if is_none persisted then computed
      else dict_set "persisted" (VBool (eq_str persisted "STORED")) computed in
    dict_set "computed" (VDict computed) col_kw.

(** The column built from the groups of a matched line. *)
Definition column_of_spec (spec : dict) : M pyval :=
  name <- getitem spec "name" ;;
  type_ <- getitem spec "coltype" ;;
  args <- getitem spec "arg" ;;
  col_type <- resolve_type type_ name ;;
  type_args <- positional_args args ;;
  (* Column type keyword options *)
  let (type_args, type_kw) := take_fsp col_type type_args in
  let type_kw := copy_flags spec type_kw in
  ak <- strip_enum_set col_type type_args type_kw ;;
  let type_instance := VType col_type (fst ak) (snd ak) in
  let col_kw := null_autoincr_kw spec col_type in
  (* DEFAULT *)
  let default := dict_get "default" VNone spec in
  let default := if eq_str default "NULL" then VNone else default in
  let comment := dict_get "comment" VNone spec in
  comment <-
    (if is_none comment then ret comment
     else c <- as_str AttributeError comment ;;
          ret (VStr (Str.replace "''" "'" (Str.replace "\\" "\" c)))) ;;
  let col_kw := computed_kw spec col_kw in
  let col_d :=
    [("name", name); ("type", type_instance); ("default", default);
     ("comment", comment)] in
  ret (VDict (dict_update col_d col_kw)).

(** [_parse_column(line, state)] *)
Definition _parse_column (line : string) (state : ReflectedState)
  : M ReflectedState :=
  match column_spec line with
  | None => warn (UnknownColumnDefinition line) ;;; ret state
  | Some spec =>
      (if truthy (dict_get "full" VNone spec) then ret tt
       else warn (IncompleteReflection line)) ;;;
      col_d <- column_of_spec spec ;;
      ret (set_columns state (columns state ++ [col_d])%list)
  end.

(** The body of the loop of [parse] for one line. *)
Definition parse_line (state : ReflectedState) (line : string)
  : M ReflectedState :=
  if Str.startswith line ("  " ++ initial_quote (preparer self))
  then _parse_column line state
  (* a regular table options line *)
  else if Str.startswith line ") " then _parse_table_options line state
  (* an ANSI-mode table options line *)
  else if String.eqb line ")" then ret state
  else if Str.startswith line "CREATE " then _parse_table_name line state
  (* Not present in real reflection, but may be if loading from a file. *)
  else if negb (Str.truthy line) then ret state
  else
    ts <- _parse_constraints line ;;
    let (type_, spec) := ts : pyval * pyval in
    if is_none type_ then warn (UnknownSchemaContent line) ;;; ret state
    else if eq_str type_ "key"
    then ret (set_keys state (keys state ++ [spec])%list)
    else if eq_str type_ "fk_constraint"
    then ret (set_fk_constraints state (fk_constraints state ++ [spec])%list)
    else if eq_str type_ "ck_constraint"
    then ret (set_ck_constraints state (ck_constraints state ++ [spec])%list)
    else ret state.

(** [re.split(pat, s)] *)
Definition re_split (pat s : string) : list string :=
  match Re.compile false pat with
  | Some P => Re.split P s
  | None => []
  end.

(** [parse(show_create, charset)] *)
Definition parse (show_create : string) (charset : pyval) : M ReflectedState :=
  foldM parse_line (re_split "\r?\n" show_create) (new_state charset).


Definition opt_truthy (o : option string) : bool :=
  match o with Some t => Str.truthy t | None => false end.



End Methods.


(** * Properties *)

(** ** Facts about strings *)

Lemma append_nil_r (s : string) : s ++ "" = s.
Proof. induction s; simpl; congruence. Qed.

Lemma append_assoc (a b c : string) : (a ++ b) ++ c = a ++ (b ++ c).
Proof. induction a; simpl; congruence. Qed.

Lemma length_append (a b : string) :
  String.length (a ++ b) = String.length a + String.length b.
Proof. induction a; simpl; congruence. Qed.

Lemma prefix_refl (s : string) : String.prefix s s = true.
Proof.
  induction s as [|a s IH]; simpl; [reflexivity|].
  destruct (ascii_dec a a); [assumption | congruence].
Qed.

Lemma prefix_nil (s : string) : String.prefix "" s = true.
Proof. destruct s; reflexivity. Qed.

Lemma prefix_append (a b : string) : String.prefix a (a ++ b) = true.
Proof.
  induction a as [|x a IH]; simpl; [apply prefix_nil|].
  destruct (ascii_dec x x); [assumption | congruence].
Qed.

Lemma prefix_take (n : nat) (s : string) : String.prefix (Str.take n s) s = true.
Proof.
  revert s; induction n as [|n IH]; intros [|a s]; simpl; try reflexivity.
  destruct (ascii_dec a a); [apply IH | congruence].
Qed.


Lemma prefix_inv (p s : string) :
  String.prefix p s = true -> exists t, s = p ++ t.
Proof.
  revert s; induction p as [|x p IH]; intros s H.
  - exists s; reflexivity.
  - destruct s as [|y s]; [discriminate|]. simpl in H.
    destruct (ascii_dec x y) as [->|]; [|discriminate].
    destruct (IH _ H) as [t ->]. exists t; reflexivity.
Qed.

Lemma take_append (a b : string) : Str.take (String.length a) (a ++ b) = a.
Proof. induction a; simpl; [destruct b; reflexivity | congruence]. Qed.

Lemma drop_append (a b : string) : Str.drop (String.length a) (a ++ b) = b.
Proof. induction a; simpl; [reflexivity | assumption]. Qed.


Lemma length_take (n : nat) (s : string) :
  String.length (Str.take n s) = Nat.min n (String.length s).
Proof.
  revert s; induction n as [|n IH]; intros [|a s]; simpl; try reflexivity.
  now rewrite IH.
Qed.

Lemma length_drop (n : nat) (s : string) :
  String.length (Str.drop n s) = String.length s - n.
Proof.
  revert s; induction n as [|n IH]; intros [|a s]; simpl; try reflexivity.
  apply IH.
Qed.


Lemma contains_prefix (t s : string) :
  String.prefix t s = true -> Str.contains t s = true.
Proof. intros H. destruct s; simpl in *; rewrite H; reflexivity. Qed.

Lemma contains_cons (t : string) (a : ascii) (s : string) :
  Str.contains t s = true -> Str.contains t (String a s) = true.
Proof.
  intros H. change (Str.contains t (String a s))
    with (String.prefix t (String a s) || Str.contains t s).
  rewrite H. apply orb_true_r.
Qed.

Lemma contains_drop (t : string) (n : nat) (s : string) :
  Str.contains t (Str.drop n s) = true -> Str.contains t s = true.
Proof.
  revert s; induction n as [|n IH]; intros s H; simpl in H; [assumption|].
  destruct s as [|a s]; [assumption|].
  apply contains_cons, IH, H.
Qed.

(** A slice of a text occurs in the text. *)
Lemma contains_slice (a b : nat) (s : string) :
  Str.contains (Str.slice a b s) s = true.
Proof.
  unfold Str.slice. apply contains_drop with (n := a).
  apply contains_prefix, prefix_take.
Qed.

Lemma contains_append (t a b : string) :
  Str.contains t (a ++ t ++ b) = true.
Proof.
  induction a as [|x a IH]; simpl append.
  - apply contains_prefix, prefix_append.
  - apply contains_cons, IH.
Qed.

(** ** Facts about dicts *)

Lemma dict_find_set_same (k : string) (v : pyval) (d : dict) :
  dict_find k (dict_set k v d) = Some v.
Proof.
  induction d as [|[k' v'] d IH]; simpl.
  - now rewrite String.eqb_refl.
  - destruct (String.eqb k k') eqn:E; simpl.
    + now rewrite String.eqb_refl.
    + now rewrite E.
Qed.

Lemma dict_find_set_other (k k' : string) (v : pyval) (d : dict) :
  k <> k' -> dict_find k (dict_set k' v d) = dict_find k d.
Proof.
  intros N. induction d as [|[k2 v2] d IH]; simpl.
  - apply String.eqb_neq in N. now rewrite N.
  - destruct (String.eqb k' k2) eqn:E; simpl.
    + apply String.eqb_eq in E; subst k2.
      apply String.eqb_neq in N. now rewrite N.
    + destruct (String.eqb k k2); [reflexivity | assumption].
Qed.

Lemma dict_find_pop_same (k : string) (d : dict) :
  NoDup (map fst d) -> dict_find k (dict_pop k d) = None.
Proof.
  induction d as [|[k' v'] d IH]; simpl; intros ND; [reflexivity|].
  inversion ND as [|? ? Hin ND']; subst.
  destruct (String.eqb k k') eqn:E; simpl.
  - apply String.eqb_eq in E; subst k'.
    clear - Hin. induction d as [|[k2 v2] d IH]; simpl; [reflexivity|].
    destruct (String.eqb k k2) eqn:E.
    + apply String.eqb_eq in E; subst. exfalso; apply Hin; now left.
    + apply IH. intro; apply Hin; now right.
  - rewrite E. now apply IH.
Qed.

Lemma dict_find_pop_other (k k' : string) (d : dict) :
  k <> k' -> dict_find k (dict_pop k' d) = dict_find k d.
Proof.
  intros N. induction d as [|[k2 v2] d IH]; simpl; [reflexivity|].
  destruct (String.eqb k' k2) eqn:E; simpl.
  - apply String.eqb_eq in E; subst k2.
    apply String.eqb_neq in N. now rewrite N.
  - destruct (String.eqb k k2); [reflexivity | assumption].
Qed.

Lemma dict_find_in (k : string) (v : pyval) (d : dict) :
  dict_find k d = Some v -> In (k, v) d.
Proof.
  induction d as [|[k' v'] d IH]; simpl; [discriminate|].
  destruct (String.eqb k k') eqn:E.
  - apply String.eqb_eq in E; subst. intros [= ->]. now left.
  - intros H. right. now apply IH.
Qed.

Lemma dict_find_none (k : string) (d : dict) :
  dict_find k d = None <-> ~ In k (map fst d).
Proof.
  induction d as [|[k' v'] d IH]; simpl.
  - split; [intros _ [] | reflexivity].
  - destruct (String.eqb k k') eqn:E.
    + apply String.eqb_eq in E; subst. split; [discriminate|].
      intros N. exfalso. apply N. now left.
    + apply String.eqb_neq in E. rewrite IH. split.
      * intros N [H|H]; [now apply E | now apply N].
      * intros N H. apply N. now right.
Qed.

(** ** Facts about the monad *)

Lemma bind_inr {A B} (x : M A) (f : A -> M B) (ws : list warning) (b : B) :
  bind x f = (ws, inr b) ->
  exists ws1 a ws2,
    x = (ws1, inr a) /\ f a = (ws2, inr b) /\ ws = (ws1 ++ ws2)%list.
Proof.
  destruct x as [ws1 [e|a]]; simpl; [discriminate|].
  destruct (f a) as [ws2 r] eqn:E. intros [= <- ->].
  exists ws1, a, ws2. auto.
Qed.

Lemma bind_ret_l {A B} (a : A) (f : A -> M B) : bind (ret a) f = f a.
Proof. unfold bind, ret. destruct (f a). reflexivity. Qed.

Lemma getitem_inr (d : dict) (k : string) (ws : list warning) (v : pyval) :
  getitem d k = (ws, inr v) -> ws = [] /\ dict_find k d = Some v.
Proof.
  unfold getitem. destruct (dict_find k d); simpl; intros [= <- <-]; auto.
Qed.

(** ** Facts about a parsed column *)

Section ColumnFacts.

Variable self : MySQLTableDefinitionParser.

(** The type a column line resolves to. *)
Definition resolved_type (spec : dict) : col_type :=
  match ischema_lookup (dialect self) (dict_get "coltype" VNone spec) with
  | Some t => t
  | None => NullType
  end.

(** The positional arguments read from the [arg] group, when reading
    them does not raise. *)
Definition raw_type_args (spec : dict) : list pyval :=
  match positional_args self (dict_get "arg" VNone spec) with
  | (_, inr l) => l
  | (_, inl _) => []
  end.

(** The column dict in terms of what it is built from. *)
Definition col_dict (spec : dict) (name type_instance default comment : pyval)
  : dict :=
  dict_update
    [("name", name); ("type", type_instance); ("default", default);
     ("comment", comment)]
    (computed_kw spec (null_autoincr_kw spec (resolved_type spec))).

Lemma resolve_type_inr (type_ name : pyval) (ws : list warning) (t : col_type) :
  resolve_type self type_ name = (ws, inr t) ->
  t = match ischema_lookup (dialect self) type_ with
      | Some t' => t'
      | None => NullType
      end.
Proof.
  unfold resolve_type. destruct (ischema_lookup (dialect self) type_).
  - intros [= _ ->]. reflexivity.
  - cbn. intros [= _ <-]. reflexivity.
Qed.

(** What a column that was built went through. *)
Lemma column_of_spec_inr (spec : dict) (ws : list warning) (v : pyval) :
  column_of_spec self spec = (ws, inr v) ->
  exists name args' kw' default comment wss,
    dict_find "name" spec = Some name /\
    strip_enum_set (resolved_type spec)
      (fst (take_fsp (resolved_type spec) (raw_type_args spec)))
      (copy_flags spec (snd (take_fsp (resolved_type spec) (raw_type_args spec))))
    = (wss, inr (args', kw')) /\
    v = VDict (col_dict spec name (VType (resolved_type spec) args' kw')
                 default comment).
Proof.
  unfold column_of_spec. intros H.
  apply bind_inr in H. destruct H as (w1 & name & w1' & Hn & H & _).
  apply getitem_inr in Hn. destruct Hn as [_ Hn].
  apply bind_inr in H. destruct H as (w2 & type_ & w2' & Ht & H & _).
  apply getitem_inr in Ht. destruct Ht as [_ Ht].
  apply bind_inr in H. destruct H as (w3 & args & w3' & Ha & H & _).
  apply getitem_inr in Ha. destruct Ha as [_ Ha].
  apply bind_inr in H. destruct H as (w4 & ct & w4' & Hr & H & _).
  apply resolve_type_inr in Hr.
  apply bind_inr in H. destruct H as (w5 & targs & w5' & Hp & H & _).
  assert (Hct : ct = resolved_type spec).
  { unfold resolved_type, dict_get. rewrite Ht. exact Hr. }
  assert (Hta : targs = raw_type_args spec).
  { unfold raw_type_args, dict_get. rewrite Ha, Hp. reflexivity. }
  clear Hr Hp. subst ct targs.
  destruct (take_fsp (resolved_type spec) (raw_type_args spec))
    as [targs tkw] eqn:Ef.
  apply bind_inr in H. destruct H as (w6 & [args' kw'] & w6' & Hs & H & _).
  apply bind_inr in H. destruct H as (w7 & comment & w7' & Hc & H & _).
  unfold ret in H. injection H as _ <-.
  exists name, args', kw'.
  eexists. exists comment, w6.
  split; [exact Hn|]. split; [exact Hs|]. reflexivity.
Qed.

(** A column line that is parsed appends one column, built from its
    groups. *)
Lemma _parse_column_inr (line : string) (state state' : ReflectedState)
  (ws : list warning) (spec : dict) :
  column_spec self line = Some spec ->
  _parse_column self line state = (ws, inr state') ->
  exists ws' col,
    column_of_spec self spec = (ws', inr col) /\
    state' = set_columns state (columns state ++ [col])%list.
Proof.
  unfold _parse_column. intros ->. intros H.
  apply bind_inr in H. destruct H as (w1 & [] & w1' & _ & H & _).
  apply bind_inr in H. destruct H as (w2 & col & w2' & Hc & H & _).
  unfold ret in H. injection H as _ <-.
  exists w2, col. auto.
Qed.

Ltac split_kw spec :=
  unfold col_dict, computed_kw, null_autoincr_kw;
  destruct (eq_str (dict_get "notnull" (VBool false) spec) "NOT NULL");
  destruct (truthy (dict_get "autoincr" (VBool false) spec));
  destruct (is_integer (resolved_type spec));
  destruct (is_none (dict_get "generated" VNone spec));
  destruct (is_none (dict_get "persistence" VNone spec));
  reflexivity.


Lemma col_dict_type spec name ti default comment :
  dict_find "type" (col_dict spec name ti default comment) = Some ti.
Proof. split_kw spec. Qed.

Lemma col_dict_nullable spec name ti default comment :
  dict_find "nullable" (col_dict spec name ti default comment) =
  Some (VBool (negb (eq_str (dict_get "notnull" (VBool false) spec) "NOT NULL"))).
Proof. split_kw spec. Qed.

Lemma col_dict_autoincrement spec name ti default comment :
  dict_find "autoincrement" (col_dict spec name ti default comment) =
  if truthy (dict_get "autoincr" (VBool false) spec) then Some (VBool true)
  else if is_integer (resolved_type spec) then Some (VBool false)
  else None.
Proof. split_kw spec. Qed.

End ColumnFacts.

(** ** Facts about match objects *)

Lemma match_at_string (P : Re.pattern) (whole : string) (p : nat) (s : string)
  (mo : Re.match_obj) :
  Re.match_at P whole p s = Some mo ->
  Re.mo_string mo = whole /\ Re.mo_start mo = p /\ Re.mo_names mo = Re.pat_names P.
Proof.
  unfold Re.match_at.
  destruct (Re.m _ _ _ _ _ _) as [[[e r] c]|]; [|discriminate].
  intros [= <-]. auto.
Qed.

Lemma re_match_string (P : Re.pattern) (s : string) (mo : Re.match_obj) :
  Re.re_match P s = Some mo -> Re.mo_string mo = s.
Proof. intros H. apply match_at_string in H. tauto. Qed.

(** A group that took part in a match is a slice of the text. *)
Lemma group_n_slice (mo : Re.match_obj) (g : nat) (t : string) :
  Re.group_n mo g = Some t ->
  exists a b, t = Str.slice a b (Re.mo_string mo).
Proof.
  unfold Re.group_n. destruct (Re.cap_get g (Re.mo_caps mo)) as [[a b]|].
  - intros [= <-]. eauto.
  - discriminate.
Qed.

Lemma groupdict_find (mo : Re.match_obj) (k : string) (v : pyval) :
  dict_find k (groupdict mo) = Some v ->
  exists g, v = of_group (Re.group_n mo g).
Proof.
  unfold groupdict, Re.groupdict.
  induction (Re.mo_names mo) as [|[n g] ns IH]; simpl; [discriminate|].
  destruct (String.eqb k n).
  - intros [= <-]. eauto.
  - exact IH.
Qed.

(** A string among the groups of a match occurs in the text matched. *)
Lemma groupdict_contains (P : Re.pattern) (s : string) (mo : Re.match_obj)
  (k t : string) :
  Re.re_match P s = Some mo ->
  dict_find k (groupdict mo) = Some (VStr t) ->
  Str.contains t s = true.
Proof.
  intros Hm Hf. apply re_match_string in Hm.
  apply groupdict_find in Hf. destruct Hf as [g Hg].
  destruct (Re.group_n mo g) as [t'|] eqn:E; [|discriminate].
  injection Hg as ->. apply group_n_slice in E.
  destruct E as (a & b & ->). rewrite Hm. apply contains_slice.
Qed.

(** The groups of a column line occur in the line. *)
Lemma column_spec_contains (self : MySQLTableDefinitionParser)
  (line : string) (spec : dict) (k t : string) :
  column_spec self line = Some spec ->
  k <> "full" ->
  dict_find k spec = Some (VStr t) ->
  Str.contains t line = true.
Proof.
  unfold column_spec. intros H N Hf.
  destruct (Re.re_match (_re_column self) line) as [mo|] eqn:E1.
  - injection H as <-. rewrite dict_find_set_other in Hf by exact N.
    eapply groupdict_contains; eassumption.
  - destruct (Re.re_match (_re_column_loose self) line) as [mo|] eqn:E2;
      [|discriminate].
    injection H as <-. rewrite dict_find_set_other in Hf by exact N.
    eapply groupdict_contains; eassumption.
Qed.

(** ** The claims about a column *)

(** C6: the [autoincrement] entry of a parsed column is three-valued.
    It is [True] when the AUTO_INCREMENT marker was captured (the
    [autoincr] group of the match is a non-empty string); without the
    marker it is [False] when the resolved type is in the integer
    family; and without the marker and with any other type the column
    has no [autoincrement] entry at all. *)
Theorem C6_autoincrement_three_valued :
  forall (self : MySQLTableDefinitionParser) (line : string)
         (state state' : ReflectedState) (ws : list warning) (spec : dict),
    column_spec self line = Some spec ->
    _parse_column self line state = (ws, inr state') ->
    exists col_d,
      columns state' = (columns state ++ [VDict col_d])%list /\
      let marker := truthy (dict_get "autoincr" (VBool false) spec) in
      let integer := is_integer (resolved_type self spec) in
      (marker = true ->
       dict_find "autoincrement" col_d = Some (VBool true)) /\
      (marker = false -> integer = true ->
       dict_find "autoincrement" col_d = Some (VBool false)) /\
      (marker = false -> integer = false ->
       dict_find "autoincrement" col_d = None).
Proof.
  intros self line state state' ws spec Hs Hp.
  destruct (_parse_column_inr self line state state' ws spec Hs Hp)
    as (ws' & col & Hc & ->).
  apply column_of_spec_inr in Hc.
  destruct Hc as (name & args' & kw' & default & comment & wss & _ & _ & ->).
  eexists. split; [reflexivity|].
  cbv zeta. rewrite col_dict_autoincrement.
  repeat split; intros; repeat match goal with
  | H : _ = _ |- _ => rewrite H
  end; reflexivity.
Qed.

(** A column line with every marker, what the full pattern captures in
    it and the state after it. *)
Definition id_line : string := "  `id` int NOT NULL AUTO_INCREMENT,".

Definition id_spec : dict :=
  Eval vm_compute in
    match column_spec mysql_parser id_line with Some d => d | None => [] end.

Definition id_state : ReflectedState :=
  Eval vm_compute in
    match _parse_column mysql_parser id_line (new_state VNone) with
    | (_, inr st) => st
    | (_, inl _) => new_state VNone
    end.

Lemma C6_autoincrement_witness :
  column_spec mysql_parser id_line = Some id_spec /\
  _parse_column mysql_parser id_line (new_state VNone) = ([], inr id_state) /\
  exists col_d,
    columns id_state = [VDict col_d] /\
    dict_find "autoincrement" col_d = Some (VBool true).
Proof.
  split; [vm_compute; reflexivity|].
  split; [vm_compute; reflexivity|].
  destruct (C6_autoincrement_three_valued mysql_parser id_line
              (new_state VNone) id_state [] id_spec)
    as (col_d & Hc & Ht & _); try (vm_compute; reflexivity).
  exists col_d. split; [exact Hc|]. apply Ht. vm_compute. reflexivity.
Defined.

(** The three values on lines of the MySQL and of the ANSI quoting: the
    spec's [  "id" int NOT NULL AUTO_INCREMENT,], an integer without the
    marker and a string column. *)
Example autoincrement_examples :
  let col p l :=
    match _parse_column p l (new_state VNone) with
    | (_, inr st) =>
        match columns st with
        | [VDict d] =>
            Some (dict_find "name" d, dict_find "nullable" d,
                  dict_find "autoincrement" d)
        | _ => None
        end
    | _ => None
    end in
  col ansi_parser
    ("  " ++ String Str.dquote ("id" ++ String Str.dquote
       " int NOT NULL AUTO_INCREMENT,"))
  = Some (Some (VStr "id"), Some (VBool false), Some (VBool true)) /\
  col mysql_parser "  `n` bigint(20) DEFAULT NULL,"
  = Some (Some (VStr "n"), Some (VBool true), Some (VBool false)) /\
  col mysql_parser "  `s` varchar(32) DEFAULT NULL,"
  = Some (Some (VStr "s"), Some (VBool true), None).
Proof. vm_compute. repeat split. Qed.

(** C7: [nullable] of a parsed column is [True] unless the [notnull]
    group is exactly the text [NOT NULL], in which case it is [False];
    a captured [NULL] leaves it [True], and so does a line in which the
    text [NOT NULL] does not occur. *)
Theorem C7_nullable_default_true :
  forall (self : MySQLTableDefinitionParser) (line : string)
         (state state' : ReflectedState) (ws : list warning) (spec : dict),
    column_spec self line = Some spec ->
    _parse_column self line state = (ws, inr state') ->
    exists col_d,
      columns state' = (columns state ++ [VDict col_d])%list /\
      let notnull := dict_get "notnull" (VBool false) spec in
      (notnull = VStr "NOT NULL" ->
       dict_find "nullable" col_d = Some (VBool false)) /\
      (notnull <> VStr "NOT NULL" ->
       dict_find "nullable" col_d = Some (VBool true)) /\
      (notnull = VStr "NULL" ->
       dict_find "nullable" col_d = Some (VBool true)) /\
      (Str.contains "NOT NULL" line = false ->
       dict_find "nullable" col_d = Some (VBool true)).
Proof.
  intros self line state state' ws spec Hs Hp.
  destruct (_parse_column_inr self line state state' ws spec Hs Hp)
    as (ws' & col & Hc & ->).
  apply column_of_spec_inr in Hc.
  destruct Hc as (name & args' & kw' & default & comment & wss & _ & _ & ->).
  eexists. split; [reflexivity|].
  cbv zeta. rewrite col_dict_nullable.
  assert (Hne : dict_get "notnull" (VBool false) spec <> VStr "NOT NULL" ->
                eq_str (dict_get "notnull" (VBool false) spec) "NOT NULL"
                = false).
  { intros N. destruct (dict_get "notnull" (VBool false) spec); try reflexivity.
    simpl. apply String.eqb_neq. congruence. }
  split; [intros ->; reflexivity|].
  split; [intros N; now rewrite (Hne N)|].
  split; [intros ->; reflexivity|].
  intros Hnc. rewrite Hne; [reflexivity|].
  intros E. unfold dict_get in E.
  destruct (dict_find "notnull" spec) as [v|] eqn:Ef; [|discriminate].
  subst v.
  rewrite (column_spec_contains self line spec "notnull" "NOT NULL" Hs) in Hnc;
    [discriminate | discriminate | exact Ef].
Qed.

Lemma C7_nullable_witness :
  column_spec mysql_parser id_line = Some id_spec /\
  _parse_column mysql_parser id_line (new_state VNone) = ([], inr id_state) /\
  exists col_d,
    columns id_state = [VDict col_d] /\
    dict_find "nullable" col_d = Some (VBool false).
Proof.
  split; [vm_compute; reflexivity|].
  split; [vm_compute; reflexivity|].
  destruct (C7_nullable_default_true mysql_parser id_line
              (new_state VNone) id_state [] id_spec)
    as (col_d & Hc & Ht & _); try (vm_compute; reflexivity).
  exists col_d. split; [exact Hc|]. apply Ht. vm_compute. reflexivity.
Defined.

(** [NOT NULL], [NULL], no token, and the lower-case [not null], which
    the pattern matches but which is not the text compared with. *)
Example nullable_examples :
  let nullable l :=
    match _parse_column mysql_parser l (new_state VNone) with
    | (_, inr st) =>
        match columns st with
        | [VDict d] => dict_find "nullable" d
        | _ => None
        end
    | _ => None
    end in
  nullable "  `a` int(11) NOT NULL," = Some (VBool false) /\
  nullable "  `t` timestamp NULL DEFAULT NULL," = Some (VBool true) /\
  nullable "  `b` varchar(10) DEFAULT 'x'," = Some (VBool true) /\
  nullable "  `c` int(11) not null," = Some (VBool true).
Proof. vm_compute. repeat split. Qed.

(** ** Type arguments and keywords *)

Lemma copy_flags_find (spec kw : dict) (k : string) :
  k <> "unsigned" -> k <> "zerofill" -> k <> "charset" -> k <> "collate" ->
  dict_find k (copy_flags spec kw) = dict_find k kw.
Proof.
  intros N1 N2 N3 N4. unfold copy_flags. simpl.
  destruct (truthy (dict_get "unsigned" (VBool false) spec));
  destruct (truthy (dict_get "zerofill" (VBool false) spec));
  destruct (truthy (dict_get "charset" (VBool false) spec));
  destruct (truthy (dict_get "collate" (VBool false) spec));
  repeat rewrite dict_find_set_other by assumption; reflexivity.
Qed.

Lemma fsp_not_enum_set (t : col_type) :
  is_fsp_type t = true -> is_enum_or_set t = false.
Proof. destruct t; simpl; congruence. Qed.

Lemma enum_set_not_fsp (t : col_type) :
  is_enum_or_set t = true -> is_fsp_type t = false.
Proof. destruct t; simpl; congruence. Qed.

(** Stripping succeeds exactly on strings, and strips each of them. *)
Lemma _strip_values_inr (values : list pyval) (ws : list warning)
  (out : list pyval) :
  _strip_values values = (ws, inr out) ->
  exists raw,
    values = map VStr raw /\ out = map (fun a => VStr (strip_value a)) raw.
Proof.
  revert ws out. induction values as [|a values IH]; intros ws out H.
  - injection H as _ <-. exists []. auto.
  - simpl in H. apply bind_inr in H.
    destruct H as (w1 & a' & w2 & Ha & H & _).
    destruct a; try discriminate. injection Ha as _ <-.
    apply bind_inr in H. destruct H as (w3 & rest & w4 & Hr & H & _).
    injection H as _ <-.
    destruct (IH _ _ Hr) as (raw & -> & ->).
    exists (s :: raw). auto.
Qed.

Lemma existsb_empty_strip (raw : list string) :
  existsb (fun v => eq_str v "") (map (fun a => VStr (strip_value a)) raw)
  = true
  <-> In "" (map strip_value raw).
Proof.
  induction raw as [|a raw IH]; simpl.
  - split; [discriminate | intros []].
  - rewrite orb_true_iff, IH, String.eqb_eq. tauto.
Qed.

(** A value between single quotes loses them, and its doubled quotes
    are undoubled. *)
Lemma strip_value_quoted (body : string) :
  strip_value ("'" ++ body ++ "'") = Str.replace "''" "'" body.
Proof.
  unfold strip_value. simpl String.length. simpl Str.slice at 1 2 3.
  cbn [String.eqb Ascii.eqb Bool.eqb orb andb].
  replace (Str.slice 1 (S (String.length (body ++ "'")) - 1) ("'" ++ body ++ "'"))
    with body; [reflexivity|].
  unfold Str.slice. simpl Str.drop.
  rewrite length_append. simpl.
  replace (String.length body + 1 - 0 - 1) with (String.length body) by lia.
  now rewrite take_append.
Qed.

(** C8: for a column whose type takes fractional seconds (DATETIME,
    TIME, TIMESTAMP), the first positional argument, when there is one,
    becomes the [fsp] keyword of the type and the positional arguments
    are the remaining ones; without an argument there is no [fsp].  The
    line [`col` TIMESTAMP(3)] gives [fsp = 3] and no positional
    argument. *)
Theorem C8_fsp_from_first_argument :
  (forall (self : MySQLTableDefinitionParser) (line : string)
          (state state' : ReflectedState) (ws : list warning) (spec : dict),
      column_spec self line = Some spec ->
      _parse_column self line state = (ws, inr state') ->
      is_fsp_type (resolved_type self spec) = true ->
      exists col_d args kw,
        columns state' = (columns state ++ [VDict col_d])%list /\
        dict_find "type" col_d
        = Some (VType (resolved_type self spec) args kw) /\
        match raw_type_args self spec with
        | a :: rest => dict_find "fsp" kw = Some a /\ args = rest
        | [] => dict_find "fsp" kw = None /\ args = []
        end) /\
  (exists st name default comment nullable,
     _parse_column mysql_parser "  `col` TIMESTAMP(3)" (new_state VNone)
     = ([], inr st) /\
     columns st
     = [VDict [name; ("type", VType TIMESTAMP [] [("fsp", VInt 3)]);
               default; comment; nullable]]).
Proof.
  split.
  - intros self line state state' ws spec Hs Hp Hf.
    destruct (_parse_column_inr self line state state' ws spec Hs Hp)
      as (ws' & col & Hc & ->).
    apply column_of_spec_inr in Hc.
    destruct Hc as (name & args' & kw' & default & comment & wss & _ & He & ->).
    exists (col_dict self spec name (VType (resolved_type self spec) args' kw')
              default comment), args', kw'.
    split; [reflexivity|]. split; [apply col_dict_type|].
    unfold strip_enum_set in He.
    rewrite (fsp_not_enum_set _ Hf) in He. injection He as _ <- <-.
    unfold take_fsp. rewrite Hf.
    destruct (raw_type_args self spec) as [|a rest]; simpl fst; simpl snd;
      rewrite copy_flags_find by discriminate; simpl; auto.
  - vm_compute. do 5 eexists. split; reflexivity.
Qed.

(** A line with fractional seconds, its groups and the state after. *)
Definition fsp_line : string := "  `ts` datetime(6) NOT NULL,".

Definition fsp_spec : dict :=
  Eval vm_compute in
    match column_spec mysql_parser fsp_line with Some d => d | None => [] end.

Definition fsp_state : ReflectedState :=
  Eval vm_compute in
    match _parse_column mysql_parser fsp_line (new_state VNone) with
    | (_, inr st) => st
    | (_, inl _) => new_state VNone
    end.

Lemma C8_fsp_witness :
  column_spec mysql_parser fsp_line = Some fsp_spec /\
  _parse_column mysql_parser fsp_line (new_state VNone) = ([], inr fsp_state) /\
  is_fsp_type (resolved_type mysql_parser fsp_spec) = true /\
  exists col_d kw,
    columns fsp_state = [VDict col_d] /\
    dict_find "type" col_d = Some (VType DATETIME [] kw) /\
    dict_find "fsp" kw = Some (VInt 6).
Proof.
  split; [vm_compute; reflexivity|].
  split; [vm_compute; reflexivity|].
  split; [vm_compute; reflexivity|].
  destruct (proj1 C8_fsp_from_first_argument mysql_parser fsp_line
              (new_state VNone) fsp_state [] fsp_spec)
    as (col_d & args & kw & Hc & Ht & Hr); try (vm_compute; reflexivity).
  change (raw_type_args mysql_parser fsp_spec) with [VInt 6] in Hr.
  destruct Hr as [Hk ->].
  exists col_d, kw. auto.
Defined.

(** C9: for a column of an ENUM or SET type the positional arguments of
    the type are the value literals with the enclosing quotes stripped
    and the doubled quotes inside undoubled, and [retrieve_as_bitwise]
    is set, to [True], exactly for a SET with the empty string among the
    stripped values: [SET('a','','b')] has it, [SET('a','b')] has not. *)
Theorem C9_enum_set_values :
  (forall (self : MySQLTableDefinitionParser) (line : string)
          (state state' : ReflectedState) (ws : list warning) (spec : dict),
      column_spec self line = Some spec ->
      _parse_column self line state = (ws, inr state') ->
      is_enum_or_set (resolved_type self spec) = true ->
      exists col_d kw raw,
        columns state' = (columns state ++ [VDict col_d])%list /\
        raw_type_args self spec = map VStr raw /\
        dict_find "type" col_d
        = Some (VType (resolved_type self spec)
                  (map (fun a => VStr (strip_value a)) raw) kw) /\
        (is_set (resolved_type self spec) = true /\
         In "" (map strip_value raw) ->
         dict_find "retrieve_as_bitwise" kw = Some (VBool true)) /\
        (~ (is_set (resolved_type self spec) = true /\
            In "" (map strip_value raw)) ->
         dict_find "retrieve_as_bitwise" kw = None)) /\
  (forall body : string,
      strip_value ("'" ++ body ++ "'") = Str.replace "''" "'" body) /\
  (exists st name default comment nullable,
     _parse_column mysql_parser "  `col` SET('a','','b')" (new_state VNone)
     = ([], inr st) /\
     columns st
     = [VDict [name;
               ("type", VType SET [VStr "a"; VStr ""; VStr "b"]
                          [("retrieve_as_bitwise", VBool true)]);
               default; comment; nullable]]) /\
  (exists st name default comment nullable,
     _parse_column mysql_parser "  `col` SET('a','b')" (new_state VNone)
     = ([], inr st) /\
     columns st
     = [VDict [name; ("type", VType SET [VStr "a"; VStr "b"] []);
               default; comment; nullable]]) /\
  (exists st name default comment nullable,
     _parse_column mysql_parser "  `col` enum('it''s','')" (new_state VNone)
     = ([], inr st) /\
     columns st
     = [VDict [name; ("type", VType ENUM [VStr "it's"; VStr ""] []);
               default; comment; nullable]]).
Proof.
  split; [|split; [exact strip_value_quoted|]].
  - intros self line state state' ws spec Hs Hp Hf.
    destruct (_parse_column_inr self line state state' ws spec Hs Hp)
      as (ws' & col & Hc & ->).
    apply column_of_spec_inr in Hc.
    destruct Hc as (name & args' & kw' & default & comment & wss & _ & He & ->).
    unfold strip_enum_set in He. rewrite Hf in He.
    unfold take_fsp in He. rewrite (enum_set_not_fsp _ Hf) in He.
    simpl fst in He. simpl snd in He.
    apply bind_inr in He. destruct He as (w1 & out & w2 & Hv & He & _).
    injection He as _ <- <-.
    destruct (_strip_values_inr _ _ _ Hv) as (raw & Hraw & ->).
    eexists. eexists. exists raw.
    split; [reflexivity|]. split; [exact Hraw|].
    split; [apply col_dict_type|].
    pose proof (existsb_empty_strip raw) as Hex.
    destruct (is_set (resolved_type self spec)); simpl andb.
    + destruct (existsb _ _).
      * split; [intros _; apply dict_find_set_same|].
        intros N. exfalso. apply N. split; [reflexivity | now apply Hex].
      * split.
        -- intros [_ Hin]. apply Hex in Hin. discriminate.
        -- intros _. now rewrite copy_flags_find by discriminate.
    + split; [intros [E _]; discriminate|].
      intros _. now rewrite copy_flags_find by discriminate.
  - vm_compute. repeat split; do 5 eexists; split; reflexivity.
Qed.

(** A SET line with an empty value, its groups and the state after. *)
Definition set_line : string := "  `flags` set('a','','b') DEFAULT NULL,".

Definition set_spec : dict :=
  Eval vm_compute in
    match column_spec mysql_parser set_line with Some d => d | None => [] end.

Definition set_state : ReflectedState :=
  Eval vm_compute in
    match _parse_column mysql_parser set_line (new_state VNone) with
    | (_, inr st) => st
    | (_, inl _) => new_state VNone
    end.

Lemma C9_enum_set_witness :
  column_spec mysql_parser set_line = Some set_spec /\
  _parse_column mysql_parser set_line (new_state VNone) = ([], inr set_state) /\
  is_enum_or_set (resolved_type mysql_parser set_spec) = true /\
  exists col_d kw,
    columns set_state = [VDict col_d] /\
    dict_find "type" col_d
    = Some (VType SET [VStr "a"; VStr ""; VStr "b"] kw) /\
    dict_find "retrieve_as_bitwise" kw = Some (VBool true).
Proof.
  split; [vm_compute; reflexivity|].
  split; [vm_compute; reflexivity|].
  split; [vm_compute; reflexivity|].
  destruct (proj1 C9_enum_set_values mysql_parser set_line
              (new_state VNone) set_state [] set_spec)
    as (col_d & kw & raw & Hc & Hr & Ht & Hb & _);
    try (vm_compute; reflexivity).
  change (raw_type_args mysql_parser set_spec)
    with (map VStr ["'a'"; "''"; "'b'"]) in Hr.
  assert (E : raw = ["'a'"; "''"; "'b'"]).
  { clear - Hr. revert Hr. generalize ["'a'"; "''"; "'b'"].
    induction raw as [|x raw IH]; intros [|y l]; simpl; try discriminate.
    - reflexivity.
    - intros [= -> H]. f_equal. now apply IH. }
  subst raw. exists col_d, kw.
  split; [exact Hc|]. split; [exact Ht|].
  apply Hb. split; [reflexivity|]. vm_compute. auto.
Defined.

(** ** Lines *)

(** The pattern [parse] splits the statement with. *)
Definition newline_pattern : Re.pattern :=
  Eval vm_compute in
    match Re.compile false "\r?\n" with Some P => P | None => no_pattern end.

Lemma compile_newline : Re.compile false "\r?\n" = Some newline_pattern.
Proof. vm_compute. reflexivity. Qed.

(** Whether a newline occurs in a text. *)
Definition has_newline (s : string) : bool :=
  Str.contains (String Str.nl "") s.

Lemma prefix_cons_eq (a b : ascii) (p s : string) :
  String.prefix (String a p) (String b s)
  = if ascii_dec a b then String.prefix p s else false.
Proof. reflexivity. Qed.

Lemma has_newline_cons_eq (a : ascii) (s : string) :
  has_newline (String a s) = Ascii.eqb a Str.nl || has_newline s.
Proof.
  unfold has_newline.
  change (Str.contains (String Str.nl "") (String a s))
    with (String.prefix (String Str.nl "") (String a s)
          || Str.contains (String Str.nl "") s).
  rewrite prefix_cons_eq, prefix_nil. f_equal.
  destruct (ascii_dec Str.nl a) as [<-|N].
  - now rewrite Ascii.eqb_refl.
  - symmetry. apply Ascii.eqb_neq. congruence.
Qed.

Lemma has_newline_cons (a : ascii) (s : string) :
  has_newline (String a s) = false ->
  Ascii.eqb a Str.nl = false /\ has_newline s = false.
Proof. rewrite has_newline_cons_eq. apply orb_false_iff. Qed.

(** In a text without a newline the pattern is found nowhere. *)
Lemma search_newline_none (whole : string) (p : nat) (s : string) :
  has_newline s = false ->
  Re.search_from newline_pattern whole p s = None.
Proof.
  revert p. induction s as [|a s IH]; intros p H.
  - reflexivity.
  - apply has_newline_cons in H. destruct H as [Ha Hs].
    simpl. rewrite (IH (S p) Hs).
    unfold Re.match_at. cbn. unfold Str.nl in Ha. rewrite Ha.
    destruct (Ascii.eqb a "013"); [|reflexivity].
    destruct s as [|b s]; [reflexivity|].
    apply has_newline_cons in Hs. destruct Hs as [Hb _].
    unfold Str.nl in Hb. now rewrite Hb.
Qed.

(** A text without a newline is one line. *)
Lemma re_split_one_line (s : string) :
  has_newline s = false -> re_split "\r?\n" s = [s].
Proof.
  intros H. unfold re_split. rewrite compile_newline.
  unfold Re.split, Re.finditer. simpl Re.finditer_from.
  now rewrite (search_newline_none s 0 s H).
Qed.

(** ** The table name *)

Lemma as_str_of_group (e : exn) (g : option string) (ws : list warning)
  (s : string) :
  as_str e (of_group g) = (ws, inr s) -> g = Some s /\ ws = [].
Proof. destruct g; simpl; [intros [= <- <-]; auto | discriminate]. Qed.

(** The outcome of [_parse_table_name]: nothing without a match, the
    cleaned-up name with one. *)
Lemma _parse_table_name_inr (self : MySQLTableDefinitionParser)
  (line : string) (state state' : ReflectedState) (ws : list warning) :
  _parse_table_name self line state = (ws, inr state') ->
  ws = [] /\
  ((Re.re_match (fst (_pr_name self)) line = None /\ state' = state) \/
   exists mo n,
     Re.re_match (fst (_pr_name self)) line = Some mo /\
     Re.group mo "name" = Some n /\
     state' = set_table_name state
                (VStr (apply_cleanup self (snd (_pr_name self)) n))).
Proof.
  unfold _parse_table_name. destruct (_pr_name self) as [regex cleanup].
  simpl fst; simpl snd.
  destruct (Re.re_match regex line) as [mo|].
  - intros H. apply bind_inr in H. destruct H as (w1 & n & w2 & Hn & H & ->).
    apply as_str_of_group in Hn. destruct Hn as [Hn ->].
    injection H as <- <-. split; [reflexivity|]. right. eauto.
  - intros [= <- <-]. auto.
Qed.

(** A line that begins with [CREATE ] goes to [_parse_table_name]. *)
Lemma parse_line_create (self : MySQLTableDefinitionParser)
  (state : ReflectedState) (line : string) :
  Str.startswith line "CREATE " = true ->
  parse_line self state line = _parse_table_name self line state.
Proof.
  intros H. unfold parse_line. rewrite H.
  apply prefix_inv in H. destruct H as [t ->].
  replace (Str.startswith ("CREATE " ++ t) ("  " ++ initial_quote (preparer self)))
    with false by reflexivity.
  replace (Str.startswith ("CREATE " ++ t) ") ") with false by reflexivity.
  replace (String.eqb ("CREATE " ++ t) ")") with false by reflexivity.
  reflexivity.
Qed.

Lemma option_bind_some {A B} (x : option A) (f : A -> option B) (b : B) :
  option_bind x f = Some b -> exists a, x = Some a /\ f a = Some b.
Proof. destruct x; simpl; [eauto | discriminate]. Qed.

Lemma _pr_compile_some (regex : string) (c : cleanup)
  (p : Re.pattern * cleanup) :
  _pr_compile regex c = Some p -> snd p = c.
Proof.
  unfold _pr_compile. destruct (_re_compile regex); [|discriminate].
  intros [= <-]. reflexivity.
Qed.

(** The callable that [__init__] pairs with the header pattern is the
    preparer's [_unescape_identifier]. *)
Lemma init_name_cleanup (d : Dialect) (pr : IdentifierPreparer)
  (self : MySQLTableDefinitionParser) :
  __init__ d pr = Some self -> snd (_pr_name self) = UnescapeIdentifier.
Proof.
  unfold __init__. intros H.
  apply option_bind_some in H. destruct H as (pn & Hpn & H).
  apply _pr_compile_some in Hpn.
  repeat (apply option_bind_some in H; destruct H as (? & _ & H)).
  injection H as <-.
  exact Hpn.
Qed.

(** C10: a line that begins with [CREATE ] goes to the table-name
    parser.  When the header pattern does not match it, the state is
    returned as it is, the table name of a fresh state stays [None],
    and no warning is emitted, so that the statement made of that line
    alone parses to the fresh state without a warning; and the table
    name changes only when the pattern matches, to the captured name
    put through the callable paired with the pattern, which [__init__]
    makes the preparer's [_unescape_identifier]. *)
Theorem C10_unmatched_header_keeps_name_unset :
  forall (self : MySQLTableDefinitionParser) (line : string),
    Str.startswith line "CREATE " = true ->
    (Re.re_match (fst (_pr_name self)) line = None ->
     (forall state, parse_line self state line = ([], inr state)) /\
     (forall charset,
         has_newline line = false ->
         parse self line charset = ([], inr (new_state charset)) /\
         table_name (new_state charset) = VNone)) /\
    (forall state state' ws,
        parse_line self state line = (ws, inr state') ->
        ws = [] /\
        (state' = state \/
         exists mo n,
           Re.re_match (fst (_pr_name self)) line = Some mo /\
           Re.group mo "name" = Some n /\
           state' = set_table_name state
                      (VStr (apply_cleanup self (snd (_pr_name self)) n)))) /\
    (forall d pr,
        __init__ d pr = Some self ->
        forall n,
          apply_cleanup self (snd (_pr_name self)) n
          = _unescape_identifier (preparer self) n).
Proof.
  intros self line Hc. split; [|split].
  - intros Hn.
    assert (Hl : forall state, parse_line self state line = ([], inr state)).
    { intros state. rewrite parse_line_create by exact Hc.
      unfold _parse_table_name. destruct (_pr_name self) as [regex cleanup].
      simpl in Hn. now rewrite Hn. }
    split; [exact Hl|].
    intros charset Hnl. split; [|reflexivity].
    unfold parse. rewrite re_split_one_line by exact Hnl.
    simpl foldM. rewrite Hl. reflexivity.
  - intros state state' ws H. rewrite parse_line_create in H by exact Hc.
    apply _parse_table_name_inr in H. destruct H as [-> [[_ ->]|H]]; auto.
  - intros d pr Hi n. now rewrite (init_name_cleanup d pr self Hi).
Qed.

Lemma C10_unmatched_header_witness :
  Str.startswith "CREATE TABLE users (" "CREATE " = true /\
  Re.re_match (fst (_pr_name mysql_parser)) "CREATE TABLE users (" = None /\
  parse mysql_parser "CREATE TABLE users (" VNone
  = ([], inr (new_state VNone)).
Proof.
  split; [reflexivity|]. split; [vm_compute; reflexivity|].
  destruct (C10_unmatched_header_keeps_name_unset mysql_parser
              "CREATE TABLE users (" eq_refl) as (H & _).
  destruct H as [_ H]; [vm_compute; reflexivity|].
  apply H. vm_compute. reflexivity.
Defined.

(** A header that matches sets the name, unescaped. *)
Example table_name_examples :
  (let (ws, r) := parse mysql_parser "CREATE TABLE `a``b` (" VNone in
   (ws, match r with inr st => Some (table_name st) | inl _ => None end))
  = ([], Some (VStr "a`b")) /\
  (let (ws, r) := parse mysql_parser "CREATE TABLE `t` (x" VNone in
   (ws, match r with inr st => Some (table_name st) | inl _ => None end))
  = ([], Some VNone).
Proof. vm_compute. split; reflexivity. Qed.

(** ** Table options *)

Lemma percent_s_pair (a b : string) :
  Fmt.percent_s "%s_%s" [a; b] = a ++ "_" ++ b.
Proof. simpl. now rewrite append_nil_r. Qed.

Arguments Fmt.percent_s : simpl never.

Lemma append_inj_l (a b c : string) : a ++ b = a ++ c -> b = c.
Proof. induction a; simpl; [auto | intros [= H]; auto]. Qed.

Lemma dict_set_keys (k k' : string) (v : pyval) (d : dict) :
  In k (map fst (dict_set k' v d)) <-> k = k' \/ In k (map fst d).
Proof.
  induction d as [|[k2 v2] d IH]; simpl.
  - intuition.
  - destruct (String.eqb k' k2) eqn:E; simpl.
    + apply String.eqb_eq in E; subst k2. intuition.
    + rewrite IH. intuition.
Qed.

Lemma dict_set_nodup (k : string) (v : pyval) (d : dict) :
  NoDup (map fst d) -> NoDup (map fst (dict_set k v d)).
Proof.
  induction d as [|[k2 v2] d IH]; simpl; intros ND.
  - constructor; [intros [] | constructor].
  - inversion ND as [|? ? Hin ND']; subst.
    destruct (String.eqb k k2) eqn:E; simpl.
    + apply String.eqb_eq in E; subst k2. now constructor.
    + constructor; [|now apply IH].
      rewrite dict_set_keys. intros [->|H]; [|contradiction].
      now rewrite String.eqb_refl in E.
Qed.

Lemma dict_pop_keys (k k' : string) (d : dict) :
  NoDup (map fst d) ->
  (In k (map fst (dict_pop k' d)) <-> k <> k' /\ In k (map fst d)).
Proof.
  induction d as [|[k2 v2] d IH]; simpl; intros ND.
  - intuition.
  - inversion ND as [|? ? Hin ND']; subst.
    destruct (String.eqb k' k2) eqn:E; simpl.
    + apply String.eqb_eq in E; subst k2. split.
      * intros H. split; [|now right]. intros ->. contradiction.
      * intros [N [H|H]]; [congruence | exact H].
    + apply String.eqb_neq in E. rewrite (IH ND'). split.
      * intros [<-|[N H]]; [split; [congruence | now left] | split; [exact N | now right]].
      * intros [N [H|H]]; [now left | right; auto].
Qed.

Lemma dict_pop_nodup (k : string) (d : dict) :
  NoDup (map fst d) -> NoDup (map fst (dict_pop k d)).
Proof.
  induction d as [|[k2 v2] d IH]; simpl; intros ND; [constructor|].
  inversion ND as [|? ? Hin ND']; subst.
  destruct (String.eqb k k2); simpl; [exact ND'|].
  constructor; [|now apply IH].
  rewrite (dict_pop_keys _ _ _ ND'). tauto.
Qed.

Lemma dict_find_some_keys (k : string) (v : pyval) (d : dict) :
  dict_find k d = Some v -> In k (map fst d).
Proof.
  intros H. apply dict_find_in in H.
  change k with (fst (k, v)). now apply in_map.
Qed.

(** The options without the three that are not kept. *)
Definition kept_options (options : dict) : dict :=
  fold_left (fun o nope => dict_pop nope o) nopes options.

Lemma kept_options_keys (k : string) (options : dict) :
  NoDup (map fst options) ->
  (In k (map fst (kept_options options)) <->
   ~ In k nopes /\ In k (map fst options)).
Proof.
  intros ND. unfold kept_options, nopes. simpl.
  rewrite dict_pop_keys by (repeat apply dict_pop_nodup; exact ND).
  rewrite dict_pop_keys by (repeat apply dict_pop_nodup; exact ND).
  rewrite dict_pop_keys by exact ND.
  intuition congruence.
Qed.

Lemma kept_options_nodup (options : dict) :
  NoDup (map fst options) -> NoDup (map fst (kept_options options)).
Proof. intros ND. unfold kept_options. simpl. now repeat apply dict_pop_nodup. Qed.

Lemma kept_options_find (k : string) (options : dict) :
  ~ In k nopes -> dict_find k (kept_options options) = dict_find k options.
Proof.
  intros N. unfold kept_options, nopes in *. simpl in *.
  repeat rewrite dict_find_pop_other by intuition congruence. reflexivity.
Qed.

(** The options stored into the table options of the state under the
    name of the dialect. *)
Definition store_options (dn : string) (options t : dict) : dict :=
  fold_left
    (fun t ov => dict_set (Fmt.percent_s "%s_%s" [dn; fst ov]) (snd ov) t)
    options t.

Lemma store_options_keys (dn k : string) (options t : dict) :
  In k (map fst (store_options dn options t)) <->
  In k (map fst t) \/
  exists opt, In opt (map fst options) /\ k = dn ++ "_" ++ opt.
Proof.
  unfold store_options. revert t.
  induction options as [|[o v] options IH]; intros t; simpl.
  - split; [auto | intros [H|(opt & [] & _)]; exact H].
  - rewrite IH, dict_set_keys, percent_s_pair. simpl. split.
    + intros [[->|H]|(opt & H & ->)]; eauto.
    + intros [H|(opt & [<-|H] & ->)]; eauto.
Qed.

Lemma store_options_other (dn k : string) (options t : dict) :
  (forall opt, In opt (map fst options) -> k <> dn ++ "_" ++ opt) ->
  dict_find k (store_options dn options t) = dict_find k t.
Proof.
  unfold store_options. revert t.
  induction options as [|[o v] options IH]; intros t N; simpl; [reflexivity|].
  rewrite IH by (intros opt H; apply N; now right).
  apply dict_find_set_other. rewrite percent_s_pair. apply N. now left.
Qed.

Lemma store_options_find (dn opt : string) (v : pyval) (options t : dict) :
  NoDup (map fst options) ->
  dict_find opt options = Some v ->
  dict_find (dn ++ "_" ++ opt) (store_options dn options t) = Some v.
Proof.
  unfold store_options. revert t.
  induction options as [|[o w] options IH]; intros t ND; simpl;
    [discriminate|].
  inversion ND as [|? ? Hin ND']; subst.
  destruct (String.eqb opt o) eqn:E.
  - apply String.eqb_eq in E; subst o. intros [= ->].
    change (fold_left _ options ?t0) with (store_options dn options t0).
    rewrite store_options_other.
    + rewrite percent_s_pair. apply dict_find_set_same.
    + intros opt' H E. apply append_inj_l in E. injection E as E.
      congruence.
  - intros H. now apply IH.
Qed.

(** The options found in a line have distinct names. *)
Lemma scan_options_nodup (self : MySQLTableDefinitionParser) (line : string)
  (ws : list warning) (options : dict) :
  scan_options self line = (ws, inr options) -> NoDup (map fst options).
Proof.
  unfold scan_options.
  destruct (negb (Str.truthy line) || String.eqb line ")").
  - intros [= _ <-]. constructor.
  - intros H. apply bind_inr in H.
    destruct H as (w1 & [o r] & w2 & Hf & H & _).
    injection H as _ <-. simpl.
    assert (G : forall l acc ws' res,
               NoDup (map fst (fst acc)) ->
               foldM (scan_option self) l acc = (ws', inr res) ->
               NoDup (map fst (fst res))).
    { clear. induction l as [|rc l IH]; intros acc ws' res ND H.
      - injection H as _ <-. exact ND.
      - simpl in H. apply bind_inr in H.
        destruct H as (w1 & acc' & w2 & Hs & H & _).
        apply (IH acc' w2 res); [|exact H].
        clear - ND Hs. unfold scan_option in Hs.
        destruct acc as [options rest]. destruct rc as [regex cleanup].
        destruct (Re.search regex rest) as [mo|].
        + apply bind_inr in Hs. destruct Hs as (? & dv & ? & _ & Hs & _).
          apply bind_inr in Hs. destruct Hs as (? & vv & ? & _ & Hs & _).
          injection Hs as _ <-. simpl. now apply dict_set_nodup.
        + injection Hs as _ <-. exact ND. }
    apply (G _ ([], line) _ _ (NoDup_nil _) Hf).
Qed.

(** What [_parse_table_options] leaves in the state. *)
Lemma _parse_table_options_inr (self : MySQLTableDefinitionParser)
  (line : string) (state state' : ReflectedState) (ws : list warning) :
  _parse_table_options self line state = (ws, inr state') ->
  exists options,
    scan_options self line = (ws, inr options) /\
    state' = set_table_options state
               (store_options (dialect_name (dialect self))
                  (kept_options options) (table_options state)).
Proof.
  unfold _parse_table_options. intros H. apply bind_inr in H.
  destruct H as (w1 & options & w2 & Hs & H & ->).
  injection H as <- <-. exists options.
  rewrite app_nil_r. auto.
Qed.

(** Only a table-options line changes the table options. *)
Lemma parse_line_table_options (self : MySQLTableDefinitionParser)
  (state state' : ReflectedState) (line : string) (ws : list warning) :
  parse_line self state line = (ws, inr state') ->
  table_options state' = table_options state \/
  exists options,
    NoDup (map fst options) /\
    table_options state'
    = store_options (dialect_name (dialect self)) (kept_options options)
        (table_options state).
Proof.
  unfold parse_line.
  destruct (Str.startswith line ("  " ++ initial_quote (preparer self))).
  { unfold _parse_column. destruct (column_spec self line) as [spec|].
    - intros H. apply bind_inr in H. destruct H as (? & ? & ? & _ & H & _).
      apply bind_inr in H. destruct H as (? & ? & ? & _ & H & _).
      injection H as _ <-. now left.
    - intros H. apply bind_inr in H. destruct H as (? & ? & ? & _ & H & _).
      injection H as _ <-. now left. }
  destruct (Str.startswith line ") ").
  { intros H. apply _parse_table_options_inr in H.
    destruct H as (options & Hs & ->). right. exists options.
    split; [eapply scan_options_nodup; eassumption | reflexivity]. }
  destruct (String.eqb line ")"); [intros [= _ <-]; now left|].
  destruct (Str.startswith line "CREATE ").
  { intros H. apply _parse_table_name_inr in H.
    destruct H as [_ [[_ ->]|(mo & n & _ & _ & ->)]]; now left. }
  destruct (negb (Str.truthy line)); [intros [= _ <-]; now left|].
  intros H. apply bind_inr in H.
  destruct H as (? & [type_ spec] & ? & _ & H & _).
  destruct (is_none type_).
  { apply bind_inr in H. destruct H as (? & ? & ? & _ & H & _).
    injection H as _ <-. now left. }
  destruct (eq_str type_ "key"); [injection H as _ <-; now left|].
  destruct (eq_str type_ "fk_constraint"); [injection H as _ <-; now left|].
  destruct (eq_str type_ "ck_constraint"); injection H as _ <-; now left.
Qed.

(** The keys that [parse] can leave among the table options. *)
Definition option_key (dn k : string) : Prop :=
  exists opt, k = dn ++ "_" ++ opt /\ ~ In opt nopes.

Lemma foldM_parse_line_keys (self : MySQLTableDefinitionParser)
  (lines : list string) (state state' : ReflectedState) (ws : list warning) :
  (forall k, In k (map fst (table_options state)) ->
             option_key (dialect_name (dialect self)) k) ->
  foldM (parse_line self) lines state = (ws, inr state') ->
  forall k, In k (map fst (table_options state')) ->
            option_key (dialect_name (dialect self)) k.
Proof.
  revert state ws. induction lines as [|line lines IH]; intros state ws Inv H.
  - injection H as _ <-. exact Inv.
  - simpl in H. apply bind_inr in H.
    destruct H as (w1 & st1 & w2 & H1 & H & _).
    apply (IH st1 w2); [|exact H].
    apply parse_line_table_options in H1.
    destruct H1 as [->|(options & ND & ->)]; [exact Inv|].
    intros k Hk. apply store_options_keys in Hk.
    destruct Hk as [Hk|(opt & Hopt & ->)]; [now apply Inv|].
    apply kept_options_keys in Hopt; [|exact ND].
    exists opt. tauto.
Qed.

(** The table-options line of the spec in the six orders of its three
    directives, and with [AUTO_INCREMENT] among them. *)
Definition option_lines : list string :=
  [") ENGINE=InnoDB DEFAULT CHARSET=utf8 COMMENT='hi'";
   ") ENGINE=InnoDB COMMENT='hi' DEFAULT CHARSET=utf8";
   ") DEFAULT CHARSET=utf8 ENGINE=InnoDB COMMENT='hi'";
   ") DEFAULT CHARSET=utf8 COMMENT='hi' ENGINE=InnoDB";
   ") COMMENT='hi' ENGINE=InnoDB DEFAULT CHARSET=utf8";
   ") COMMENT='hi' DEFAULT CHARSET=utf8 ENGINE=InnoDB";
   ") ENGINE=InnoDB AUTO_INCREMENT=42 DEFAULT CHARSET=utf8 COMMENT='hi'";
   ") AUTO_INCREMENT=42 COMMENT='hi' DATA DIRECTORY='/d' DEFAULT CHARSET=utf8 INDEX DIRECTORY='/i' ENGINE=InnoDB"].

(** C4: after [_parse_table_options] the entries of the table options
    under the dialect's name for [auto_increment], [data directory] and
    [index directory] are what they were before, whatever the line
    holds, every new key is the name of the dialect, an underscore and
    the name of an option that was found and is not one of the three,
    and every such option is stored under that key; so after [parse]
    every key of the table options has that form and none is one of the
    three.  From the line [) ENGINE=InnoDB DEFAULT CHARSET=utf8
    COMMENT='hi'], in each order of its directives and with the
    directives that are dropped added, the values InnoDB, utf8 and hi
    are recovered, and nothing else. *)
Theorem C4_table_options_dropped_and_prefixed :
  (forall (self : MySQLTableDefinitionParser) (line : string)
          (state state' : ReflectedState) (ws : list warning),
      _parse_table_options self line state = (ws, inr state') ->
      let dn := dialect_name (dialect self) in
      exists options,
        scan_options self line = (ws, inr options) /\
        (forall nope,
            In nope ["auto_increment"; "data directory"; "index directory"] ->
            dict_find (dn ++ "_" ++ nope) (table_options state')
            = dict_find (dn ++ "_" ++ nope) (table_options state)) /\
        (forall k,
            In k (map fst (table_options state')) ->
            In k (map fst (table_options state)) \/
            exists opt,
              k = dn ++ "_" ++ opt /\ In opt (map fst options) /\
              ~ In opt ["auto_increment"; "data directory"; "index directory"]) /\
        (forall opt v,
            ~ In opt ["auto_increment"; "data directory"; "index directory"] ->
            dict_find opt options = Some v ->
            dict_find (dn ++ "_" ++ opt) (table_options state') = Some v)) /\
  (forall (self : MySQLTableDefinitionParser) (show_create : string)
          (charset : pyval) (ws : list warning) (state : ReflectedState),
      parse self show_create charset = (ws, inr state) ->
      forall k,
        In k (map fst (table_options state)) ->
        exists opt,
          k = dialect_name (dialect self) ++ "_" ++ opt /\
          ~ In opt ["auto_increment"; "data directory"; "index directory"]) /\
  (forall line,
      In line option_lines ->
      exists state,
        _parse_table_options mysql_parser line (new_state VNone)
        = ([], inr state) /\
        table_options state
        = [("mysql_comment", VStr "hi"); ("mysql_engine", VStr "InnoDB");
           ("mysql_default charset", VStr "utf8")]).
Proof.
  split; [|split].
  - intros self line state state' ws H dn.
    apply _parse_table_options_inr in H. destruct H as (options & Hs & ->).
    pose proof (scan_options_nodup _ _ _ _ Hs) as ND.
    exists options. split; [exact Hs|]. simpl table_options.
    split; [|split].
    + intros nope Hn. apply store_options_other.
      intros opt Hopt E. apply append_inj_l in E. injection E as ->.
      apply (kept_options_keys _ _ ND) in Hopt. tauto.
    + intros k Hk. apply store_options_keys in Hk.
      destruct Hk as [Hk|(opt & Hopt & ->)]; [now left|]. right.
      apply (kept_options_keys _ _ ND) in Hopt. exists opt. tauto.
    + intros opt v Hn Hf. apply store_options_find.
      * now apply kept_options_nodup.
      * now rewrite kept_options_find.
  - intros self show_create charset ws state H k Hk.
    unfold parse in H.
    eapply (foldM_parse_line_keys self _ (new_state charset) state ws);
      [intros k' [] | exact H | exact Hk].
  - intros line Hl. unfold option_lines in Hl. simpl in Hl.
    repeat (destruct Hl as [<-|Hl];
            [eexists; split; vm_compute; reflexivity|]).
    contradiction.
Qed.

(** A line with a directive that is dropped, the state after it and
    after the statement made of it. *)
Definition options_line : string :=
  ") ENGINE=InnoDB AUTO_INCREMENT=42 DEFAULT CHARSET=utf8 COMMENT='hi'".

Definition options_state : ReflectedState :=
  Eval vm_compute in
    match _parse_table_options mysql_parser options_line (new_state VNone) with
    | (_, inr st) => st
    | (_, inl _) => new_state VNone
    end.

Lemma C4_table_options_witness :
  _parse_table_options mysql_parser options_line (new_state VNone)
  = ([], inr options_state) /\
  parse mysql_parser options_line VNone = ([], inr options_state) /\
  dict_find "mysql_auto_increment" (table_options options_state) = None /\
  dict_find "mysql_engine" (table_options options_state)
  = Some (VStr "InnoDB") /\
  forall k,
    In k (map fst (table_options options_state)) ->
    exists opt,
      k = "mysql_" ++ opt /\
      ~ In opt ["auto_increment"; "data directory"; "index directory"].
Proof.
  assert (H1 : _parse_table_options mysql_parser options_line (new_state VNone)
               = ([], inr options_state)) by (vm_compute; reflexivity).
  assert (H2 : parse mysql_parser options_line VNone
               = ([], inr options_state)) by (vm_compute; reflexivity).
  split; [exact H1|]. split; [exact H2|].
  destruct (proj1 C4_table_options_dropped_and_prefixed mysql_parser
              options_line (new_state VNone) options_state [] H1)
    as (options & Hs & Hn & _ & Hf).
  split; [|split].
  - apply (Hn "auto_increment"). now left.
  - apply (Hf "engine" (VStr "InnoDB")).
    + intros [E|[E|[E|[]]]]; discriminate.
    + vm_compute in Hs. injection Hs as <-. reflexivity.
  - exact (proj1 (proj2 C4_table_options_dropped_and_prefixed) mysql_parser
             options_line VNone [] options_state H2).
Defined.

(** ** A line that matches no grammar *)

(** The lines of a statement parsed in turn from a fresh state. *)
Definition parse_lines (self : MySQLTableDefinitionParser)
  (lines : list string) (charset : pyval) : M ReflectedState :=
  foldM (parse_line self) lines (new_state charset).

Lemma parse_parse_lines (self : MySQLTableDefinitionParser)
  (show_create : string) (charset : pyval) :
  parse self show_create charset
  = parse_lines self (re_split "\r?\n" show_create) charset.
Proof. reflexivity. Qed.

(** A line that is not a column, table-options, terminator, header or
    empty line and that none of the key, foreign-key, check and
    partition patterns matches. *)
Definition unknown_line (self : MySQLTableDefinitionParser) (line : string)
  : Prop :=
  Str.startswith line ("  " ++ initial_quote (preparer self)) = false /\
  Str.startswith line ") " = false /\
  String.eqb line ")" = false /\
  Str.startswith line "CREATE " = false /\
  Str.truthy line = true /\
  Re.re_match (_re_key self) line = None /\
  Re.re_match (_re_fk_constraint self) line = None /\
  Re.re_match (_re_ck_constraint self) line = None /\
  Re.re_match (_re_partition self) line = None.

(** Such a line leaves the state as it is and is warned about. *)
Lemma parse_line_unknown (self : MySQLTableDefinitionParser)
  (state : ReflectedState) (line : string) :
  unknown_line self line ->
  parse_line self state line = ([UnknownSchemaContent line], inr state).
Proof.
  intros (H1 & H2 & H3 & H4 & H5 & H6 & H7 & H8 & H9).
  unfold parse_line, _parse_constraints.
  rewrite H1, H2, H3, H4, H5, H6, H7, H8, H9. reflexivity.
Qed.

Lemma foldM_app {A B} (f : A -> B -> M A) (l1 l2 : list B) (a : A) :
  foldM f (l1 ++ l2)%list a = bind (foldM f l1 a) (foldM f l2).
Proof.
  revert a. induction l1 as [|b l1 IH]; intros a; cbn [app foldM].
  - now rewrite bind_ret_l.
  - destruct (f a b) as [w [e|a']]; simpl; [reflexivity|].
    rewrite IH. destruct (foldM f l1 a') as [w1 [e|a1]]; simpl.
    + reflexivity.
    + destruct (foldM f l2 a1) as [w2 r]. now rewrite app_assoc.
Qed.

(** A statement with a line that matches no grammar is parsed as the
    statement without the line is: the outcome is the same, with the
    same columns, keys, constraints and options, or the same exception,
    and the warnings are the same with, at the place of the line, one
    more that quotes it, unless an exception is raised before the line
    is reached. *)
Lemma unknown_line_tolerated (self : MySQLTableDefinitionParser)
  (pre post : list string) (bad : string) (charset : pyval) :
  unknown_line self bad ->
  exists w1 w2 r,
    parse_lines self (pre ++ post)%list charset = ((w1 ++ w2)%list, r) /\
    ((parse_lines self (pre ++ bad :: post)%list charset
      = ((w1 ++ UnknownSchemaContent bad :: w2)%list, r)) \/
     (exists e, r = inl e /\ w2 = [] /\
        parse_lines self (pre ++ bad :: post)%list charset = (w1, inl e))).
Proof.
  intros U. unfold parse_lines. rewrite !foldM_app.
  destruct (foldM (parse_line self) pre (new_state charset))
    as [w1 [e|st1]] eqn:E1; simpl.
  - exists w1, [], (inl e). rewrite app_nil_r. split; [reflexivity|].
    right. exists e. auto.
  - rewrite (parse_line_unknown self st1 bad U). simpl.
    destruct (foldM (parse_line self) post st1) as [w2 r].
    exists w1, w2, r. split; [reflexivity|]. left. reflexivity.
Qed.

(** A statement with one unknown line among lines that parse. *)
Example unknown_line_example :
  let nl := String Str.nl "" in
  let text :=
    "CREATE TABLE `t` (" ++ nl ++
    "  `id` int(11) NOT NULL," ++ nl ++
    "  WITH SYSTEM VERSIONING" ++ nl ++
    "  PRIMARY KEY (`id`)" ++ nl ++
    ") ENGINE=InnoDB" in
  match parse mysql_parser text VNone with
  | (ws, inr st) =>
      ws = [UnknownSchemaContent "  WITH SYSTEM VERSIONING"] /\
      List.length (columns st) = 1 /\ List.length (keys st) = 1 /\
      table_name st = VStr "t" /\
      table_options st = [("mysql_engine", VStr "InnoDB")]
  | (_, inl _) => False
  end.
Proof. vm_compute. repeat split. Qed.

(** C3: [parse] does abort.  On a statement with one line that matches
    no grammar and a column line that gives an ENUM (or a SET) an
    integer argument, [_strip_values] slices the integer, the
    [TypeError] leaves [parse], and no ParseResult is returned; the
    column line alone does the same. *)
Theorem C3_parse_aborts_on_integer_enum_argument :
  let nl := String Str.nl "" in
  parse mysql_parser ("  `e` enum(5)," ++ nl ++ "  bogus") VNone
  = ([], inl TypeError) /\
  parse mysql_parser "  `e` enum(5)," VNone = ([], inl TypeError) /\
  parse mysql_parser "  `s` set(1,2)" VNone = ([], inl TypeError) /\
  unknown_line mysql_parser "  bogus" /\
  _strip_values [VInt 5] = ([], inl TypeError).
Proof. vm_compute. repeat split. Qed.

(** ** Facts about the matcher *)

Section MatcherFacts.

Variable ci : bool.

(** A matcher that does not fail on the continuations that do not. *)
Definition succeeds (x : option Re.mres) : Prop := x <> None.


Lemma succeeds_or (x y : option Re.mres) :
  succeeds x \/ succeeds y ->
  succeeds (match x with Some r => Some r | None => y end).
Proof. destruct x; [intros _; discriminate | intros [H|H]; [contradiction | exact H]]. Qed.


(** The loop succeeds whenever what follows it always does. *)
Lemma star_loop_total (body : Re.matcher) (g : bool) (k : Re.cont) :
  (forall p s c, succeeds (k p s c)) ->
  forall fuel p s c, succeeds (Re.star_loop body g k fuel p s c).
Proof.
  intros Hk fuel p s c. destruct fuel; simpl; [apply Hk|].
  destruct g.
  - apply succeeds_or. right. apply Hk.
  - destruct (k p s c) eqn:E; [discriminate|].
    exfalso. apply (Hk p s c E).
Qed.

End MatcherFacts.

(** ** Facts about case *)

Lemma lower_append (a b : string) :
  Str.lower (a ++ b) = Str.lower a ++ Str.lower b.
Proof. induction a; simpl; congruence. Qed.






(** ** Partition lines *)

(** The partition pattern, which is the same for every preparer. *)
Definition partition_pattern : Re.pattern :=
  Eval vm_compute in _re_partition mysql_parser.

(** What follows the leading run of any characters in the partition
    pattern. *)
Definition partition_tail : Re.regex :=
  Eval vm_compute in
    match Re.pat_ast partition_pattern with
    | Re.Seq _ r => r
    | r => r
    end.

Lemma partition_ast :
  Re.pat_ast partition_pattern
  = Re.Seq (Re.Seq (Re.Star true (Re.Chr Re.CDot)) Re.Eps) partition_tail.
Proof. reflexivity. Qed.









(** ** Soundness of the matcher for positions *)

(** A matcher that, when it succeeds, has called its continuation on a
    suffix of the text, at the position reached. *)
Definition sound_matcher (body : Re.matcher) : Prop :=
  forall p s c k res,
    body p s c k = Some res ->
    exists t s' c',
      s = t ++ s' /\ k (p + String.length t) s' c' = Some res.

Lemma star_loop_sound (body : Re.matcher) (g : bool) (k : Re.cont) :
  sound_matcher body ->
  forall fuel p s c res,
    Re.star_loop body g k fuel p s c = Some res ->
    exists t s' c',
      s = t ++ s' /\ k (p + String.length t) s' c' = Some res.
Proof.
  intros Hb fuel. induction fuel as [|fuel IH]; intros p s c res H.
  - simpl in H. exists "", s, c. now rewrite Nat.add_0_r.
  - simpl in H.
    assert (Hk : k p s c = Some res ->
                 exists t s' c',
                   s = t ++ s' /\ k (p + String.length t) s' c' = Some res).
    { intros E. exists "", s, c. now rewrite Nat.add_0_r. }
    assert (Hi : body p s c
                   (fun p' s' c' =>
                      if String.length s' <? String.length s
                      then Re.star_loop body g k fuel p' s' c' else None)
                 = Some res ->
                 exists t s' c',
                   s = t ++ s' /\ k (p + String.length t) s' c' = Some res).
    { intros E. apply Hb in E. destruct E as (t1 & s1 & c1 & -> & E).
      destruct (String.length s1 <? String.length (t1 ++ s1));
        [|discriminate].
      apply IH in E. destruct E as (t2 & s2 & c2 & -> & E).
      exists (t1 ++ t2), s2, c2. split; [now rewrite append_assoc|].
      now rewrite length_append, Nat.add_assoc. }
    destruct g.
    + destruct (body p s c _) eqn:E; [injection H as ->; now apply Hi|].
      now apply Hk.
    + destruct (k p s c) eqn:E; [injection H as ->; now apply Hk|].
      now apply Hi.
Qed.

Lemma m_sound (ci : bool) (r : Re.regex) : sound_matcher (Re.m ci r).
Proof.
  induction r as [|cs|r1 IH1 r2 IH2|r1 IH1 r2 IH2|g r IH|g r IH|pos r IH| |];
    intros p s c k res H; simpl in H.
  - exists "", s, c. now rewrite Nat.add_0_r.
  - destruct s as [|a s]; [discriminate|].
    destruct (Re.cset_mem ci cs a); [|discriminate].
    exists (String a ""), s, c. split; [reflexivity|].
    simpl. now rewrite Nat.add_1_r.
  - apply IH1 in H. destruct H as (t1 & s1 & c1 & -> & H).
    apply IH2 in H. destruct H as (t2 & s2 & c2 & -> & H).
    exists (t1 ++ t2), s2, c2. split; [now rewrite append_assoc|].
    now rewrite length_append, Nat.add_assoc.
  - destruct (Re.m ci r1 p s c k) eqn:E.
    + injection H as ->. exact (IH1 _ _ _ _ _ E).
    + exact (IH2 _ _ _ _ _ H).
  - exact (star_loop_sound (Re.m ci r) g k IH (S (String.length s)) p s c
             res H).
  - apply IH in H. destruct H as (t & s' & c' & -> & H). eauto.
  - exists "", s. rewrite Nat.add_0_r.
    destruct (Re.m ci r p s c _) as [[[? ?] c']|]; destruct pos;
      try discriminate; eauto.
  - destruct (p =? 0); [|discriminate].
    exists "", s, c. now rewrite Nat.add_0_r.
  - exists "", s, c. rewrite Nat.add_0_r.
    destruct s as [|a [|b s]]; try discriminate; [now split|].
    destruct (Ascii.eqb a Str.nl); [now split | discriminate].
Qed.

(** A match starts where it was tried and ends after the text it
    consumed, which is at the front of the text it was tried on. *)
Lemma match_at_span (P : Re.pattern) (whole : string) (p : nat) (s : string)
  (mo : Re.match_obj) :
  Re.match_at P whole p s = Some mo ->
  Re.mo_start mo = p /\
  exists t s', s = t ++ s' /\ Re.mo_end mo = p + String.length t.
Proof.
  unfold Re.match_at.
  destruct (Re.m _ _ _ _ _ _) as [[[e r] c]|] eqn:E; [|discriminate].
  intros [= <-]. split; [reflexivity|]. simpl.
  apply m_sound in E. destruct E as (t & s' & c' & -> & E).
  injection E as <- _ _. eauto.
Qed.

(** A search finds the first position at which the pattern matches. *)
Lemma search_from_first (P : Re.pattern) (whole : string) (s : string) :
  forall (p : nat) (mo : Re.match_obj),
    Re.search_from P whole p s = Some mo ->
    exists n,
      Re.mo_start mo = p + n /\
      Re.match_at P whole (p + n) (Str.drop n s) = Some mo /\
      (forall j, j < n ->
                 Re.match_at P whole (p + j) (Str.drop j s) = None).
Proof.
  induction s as [|a s IH]; intros p mo H; simpl in H.
  - destruct (Re.match_at P whole p "") as [mo'|] eqn:E; [|discriminate].
    injection H as <-. exists 0. rewrite Nat.add_0_r.
    split; [now apply match_at_span in E|].
    split; [exact E | intros j Hj; lia].
  - destruct (Re.match_at P whole p (String a s)) as [mo'|] eqn:E.
    + injection H as <-. exists 0. rewrite Nat.add_0_r.
      split; [now apply match_at_span in E|].
      split; [exact E | intros j Hj; lia].
    + apply IH in H. destruct H as (n & Hs & Hm & Hn).
      exists (S n). rewrite <- Nat.add_succ_comm.
      split; [exact Hs|]. split; [exact Hm|].
      intros [|j] Hj.
      * now rewrite Nat.add_0_r.
      * rewrite <- Nat.add_succ_comm. apply Hn. lia.
Qed.

Lemma search_from_order (P : Re.pattern) (whole : string) (p : nat)
  (s : string) (mo : Re.match_obj) :
  Re.search_from P whole p s = Some mo ->
  p <= Re.mo_start mo /\ Re.mo_start mo <= Re.mo_end mo.
Proof.
  intros H. apply search_from_first in H.
  destruct H as (n & Hs & Hm & _). apply match_at_span in Hm.
  destruct Hm as (_ & t & s' & _ & He). lia.
Qed.

(** ** Successive matches and substitution *)

(** Matches in order from [p] on: each starts at or after the end of
    the one before and does not end before it starts. *)
Fixpoint ordered_from (p : nat) (ms : list Re.match_obj) : Prop :=
  match ms with
  | [] => True
  | mo :: ms' =>
      p <= Re.mo_start mo /\ Re.mo_start mo <= Re.mo_end mo /\
      ordered_from (Re.mo_end mo) ms'
  end.

Lemma ordered_from_weaken (p q : nat) (ms : list Re.match_obj) :
  q <= p -> ordered_from p ms -> ordered_from q ms.
Proof. destruct ms; simpl; [auto | intros Hq (H1 & H2 & H3); repeat split; auto; lia]. Qed.

Lemma finditer_from_ordered (P : Re.pattern) (whole : string) :
  forall fuel p s, ordered_from p (Re.finditer_from fuel P whole p s).
Proof.
  induction fuel as [|fuel IH]; intros p s; simpl; [exact I|].
  destruct (Re.search_from P whole p s) as [mo|] eqn:E; [|exact I].
  apply search_from_order in E. destruct E as [E1 E2].
  destruct (Re.mo_end mo =? Re.mo_start mo) eqn:Ee.
  - apply Nat.eqb_eq in Ee.
    destruct (Str.drop (Re.mo_start mo - p) s) as [|a s'].
    + simpl. auto.
    + simpl. repeat split; auto.
      apply ordered_from_weaken with (p := S (Re.mo_start mo)); [lia|].
      apply IH.
  - simpl. repeat split; auto.
Qed.

Lemma length_slice (a b : nat) (s : string) :
  String.length (Str.slice a b s) = Nat.min (b - a) (String.length s - a).
Proof. unfold Str.slice. now rewrite length_take, length_drop. Qed.

(** What is left after the matches from [p] on are removed is no
    longer than the text from [p] on. *)
Lemma sub_from_length (whole : string) (ms : list Re.match_obj) :
  forall p,
    ordered_from p ms ->
    String.length (Re.sub_from "" whole p ms) <= String.length whole - p.
Proof.
  induction ms as [|mo ms IH]; intros p H; simpl.
  - now rewrite length_drop.
  - destruct H as (H1 & H2 & H3). apply IH in H3.
    rewrite length_append, length_slice. simpl. lia.
Qed.

(** The substitution of the empty text starts with the text before the
    first match that a search finds, and goes on after the match. *)
Lemma sub_first_match (P : Re.pattern) (s : string) (mo : Re.match_obj) :
  Re.search P s = Some mo ->
  exists tail,
    Re.sub P "" s = Str.take (Re.mo_start mo) s ++ tail /\
    String.length tail <= String.length s - Re.mo_end mo /\
    Re.mo_start mo <= Re.mo_end mo.
Proof.
  intros H. unfold Re.sub, Re.finditer.
  pose proof (finditer_from_ordered P s (S (String.length s)) 0 s) as Ho.
  simpl Re.finditer_from in *. unfold Re.search in H. rewrite H in *.
  assert (G : forall ms, ordered_from 0 (mo :: ms) ->
              exists tail,
                Re.sub_from "" s 0 (mo :: ms)
                = Str.take (Re.mo_start mo) s ++ tail /\
                String.length tail <= String.length s - Re.mo_end mo /\
                Re.mo_start mo <= Re.mo_end mo).
  { intros ms (_ & H2 & H3). exists (Re.sub_from "" s (Re.mo_end mo) ms).
    split; [|split; [now apply sub_from_length | exact H2]].
    simpl. unfold Str.slice. now rewrite Nat.sub_0_r. }
  destruct (Re.mo_end mo =? Re.mo_start mo).
  - destruct (Str.drop (Re.mo_start mo - 0) s); now apply G.
  - now apply G.
Qed.

(** [subseq s t]: [s] is [t] with some of its characters left out. *)
Inductive subseq : string -> string -> Prop :=
| subseq_nil : subseq "" ""
| subseq_keep (a : ascii) (s t : string) :
    subseq s t -> subseq (String a s) (String a t)
| subseq_skip (a : ascii) (s t : string) :
    subseq s t -> subseq s (String a t).





Lemma subseq_length (a b : string) :
  subseq a b -> String.length a <= String.length b.
Proof. induction 1; simpl; lia. Qed.




(** ** The scan of a table-options line *)





(** ** The captures a pattern leaves alone *)


(** A matcher that, when it succeeds, has called its continuation on a
    suffix of the text, at the position reached, with the captures of
    the groups outside [gs] as they were. *)
Definition framed_matcher (gs : list nat) (body : Re.matcher) : Prop :=
  forall p s c k res,
    body p s c k = Some res ->
    exists t s' c',
      s = t ++ s' /\ k (p + String.length t) s' c' = Some res /\
      forall g, ~ In g gs -> Re.cap_get g c' = Re.cap_get g c.


Lemma framed_weaken (gs gs' : list nat) (body : Re.matcher) :
  (forall g, In g gs -> In g gs') ->
  framed_matcher gs body -> framed_matcher gs' body.
Proof.
  intros Hs Hb p s c k res H. apply Hb in H.
  destruct H as (t & s' & c' & E & Hk & F).
  exists t, s', c'. repeat split; auto.
Qed.


(** ** Runs of characters under a greedy loop *)

(** Whether every character of a text passes a test. *)
Fixpoint all_chars (ok : ascii -> bool) (s : string) : bool :=
  match s with
  | EmptyString => true
  | String a s' => ok a && all_chars ok s'
  end.




(** ** The column pattern piece by piece *)

(** The pattern after its first [n] items. *)
Fixpoint seq_drop (n : nat) (r : Re.regex) : Re.regex :=
  match n, r with
  | S n', Re.Seq _ t => seq_drop n' t
  | _, _ => r
  end.








Definition opt (r : Re.regex) : Re.regex := Re.Alt r Re.Eps.







(** ** Characters *)





(** ** Steps of the matcher *)





Lemma m_opt_skip (ci : bool) (r : Re.regex) p s c k :
  Re.m ci r p s c k = None -> Re.m ci (opt r) p s c k = k p s c.
Proof. intros H. unfold opt. simpl. now rewrite H. Qed.



(** ** The head of a column line *)














(** *** The arguments of the type *)






(** *** The optional items after the type *)






(** *** NOT NULL *)



(** ** The match of a line of [_describe_to_create] *)





(** The arguments [_describe_to_create] is given for a type in the
    simple cases: none, one number, or two numbers with a comma. *)
Inductive type_args : string -> Prop :=
| NoArgs : type_args ""
| OneArg (d : ascii) (n : string) :
    all_chars Str.is_digit (String d n) = true ->
    type_args ("(" ++ String d n ++ ")")
| TwoArgs (d : ascii) (n : string) (e : ascii) (m : string) :
    all_chars Str.is_digit (String d n) = true ->
    all_chars Str.is_digit (String e m) = true ->
    type_args ("(" ++ String d n ++ "," ++ String e m ++ ")").



Lemma slice_middle (a b c : string) (p q : nat) :
  p = String.length a -> q = String.length a + String.length b ->
  Str.slice p q (a ++ b ++ c) = b.
Proof.
  intros -> ->. unfold Str.slice.
  replace (String.length a + String.length b - String.length a)
    with (String.length b) by lia.
  revert b c. induction a as [|x a IH]; intros b c; simpl.
  - revert c. induction b as [|y b IHb]; intros c; simpl.
    + destruct c; reflexivity.
    + now rewrite IHb.
  - apply IH.
Qed.



(** ** Columns that are built *)

(** A computation that returns, whatever it warns of. *)
Definition returns {A} (x : M A) : Prop := exists ws a, x = (ws, inr a).

Lemma returns_ret {A} (a : A) : returns (ret a).
Proof. exists [], a. reflexivity. Qed.

Lemma returns_bind {A B} (x : M A) (f : A -> M B) :
  returns x -> (forall a, returns (f a)) -> returns (bind x f).
Proof.
  intros (ws & a & ->) Hf. destruct (Hf a) as (ws' & b & E).
  exists (ws ++ ws')%list, b. simpl. now rewrite E.
Qed.

Lemma returns_bind_at {A B} (x : M A) (f : A -> M B) (ws : list warning) (a : A) :
  x = (ws, inr a) -> returns (f a) -> returns (bind x f).
Proof.
  intros -> (ws' & b & E).
  exists (ws ++ ws')%list, b. simpl. now rewrite E.
Qed.

(** A computation that returns without a warning. *)
Definition quiet {A} (x : M A) : Prop := exists a, x = ([], inr a).

Lemma quiet_ret {A} (a : A) : quiet (ret a).
Proof. exists a. reflexivity. Qed.

Lemma quiet_bind {A B} (x : M A) (f : A -> M B) :
  quiet x -> (forall a, quiet (f a)) -> quiet (bind x f).
Proof.
  intros (a & ->) Hf. destruct (Hf a) as (b & E).
  exists b. simpl. now rewrite E.
Qed.

Lemma quiet_bind_at {A B} (x : M A) (f : A -> M B) (a : A) :
  x = ([], inr a) -> quiet (f a) -> quiet (bind x f).
Proof. intros -> (b & E). exists b. simpl. now rewrite E. Qed.

Lemma bind_warns {A B} (x : M A) (f : A -> M B) (ws : list warning) (a : A) :
  x = (ws, inr a) -> quiet (f a) -> exists b, bind x f = (ws, inr b).
Proof.
  intros -> (b & E). exists b. simpl. rewrite E. now rewrite app_nil_r.
Qed.

(** The warning for a type the registry of the dialect does not have. *)
Definition unknown_type (d : Dialect) (type_ name : pyval) : list warning :=
  match ischema_lookup d type_ with
  | Some _ => []
  | None => [UnrecognizedType type_ name]
  end.


Lemma groupdict_lookup_none (mo : Re.match_obj) (k : string) :
  Re.name_get k (Re.mo_names mo) = None ->
  dict_find k (groupdict mo) = None.
Proof.
  unfold groupdict, Re.groupdict.
  induction (Re.mo_names mo) as [|[n g'] ns IH]; simpl; [reflexivity|].
  destruct (String.eqb k n); [discriminate | exact IH].
Qed.

Section Built.

Variable self : MySQLTableDefinitionParser.

Lemma resolve_type_returns (type_ name : pyval) :
  returns (resolve_type self type_ name).
Proof.
  unfold resolve_type. destruct (ischema_lookup (dialect self) type_).
  - apply returns_ret.
  - eexists. eexists. reflexivity.
Qed.

Lemma resolve_type_warns (type_ name : pyval) :
  exists t,
    resolve_type self type_ name
    = (unknown_type (dialect self) type_ name, inr t).
Proof.
  unfold resolve_type, unknown_type.
  destruct (ischema_lookup (dialect self) type_); eexists; reflexivity.
Qed.

Lemma positional_args_quiet (o : option string) :
  quiet (positional_args self (of_group o)).
Proof.
  destruct o as [a|]; simpl; [|apply quiet_ret].
  destruct (String.eqb a ""); [apply quiet_ret|].
  destruct (Str.first a) as [x|]; [|apply quiet_ret].
  destruct (Ascii.eqb x "'") eqn:Ex.
  - apply Ascii.eqb_eq in Ex. subst x.
    destruct (Str.last a) as [y|]; [|apply quiet_ret].
    destruct (Ascii.eqb y "'") eqn:Ey.
    + apply Ascii.eqb_eq in Ey. subst y. apply quiet_ret.
    + eexists.
      destruct y as [[] [] [] [] [] [] [] []]; try reflexivity.
      discriminate.
  - eexists.
    destruct x as [[] [] [] [] [] [] [] []]; try reflexivity.
    discriminate.
Qed.

Lemma positional_args_returns (o : option string) :
  returns (positional_args self (of_group o)).
Proof.
  destruct o as [a|]; simpl; [|apply returns_ret].
  destruct (String.eqb a ""); [apply returns_ret|].
  destruct (Str.first a) as [x|]; [|apply returns_ret].
  destruct (Ascii.eqb x "'") eqn:Ex.
  - apply Ascii.eqb_eq in Ex. subst x.
    destruct (Str.last a) as [y|]; [|apply returns_ret].
    destruct (Ascii.eqb y "'") eqn:Ey.
    + apply Ascii.eqb_eq in Ey. subst y. apply returns_ret.
    + eexists. eexists.
      destruct y as [[] [] [] [] [] [] [] []]; try reflexivity.
      discriminate.
  - eexists. eexists.
    destruct x as [[] [] [] [] [] [] [] []]; try reflexivity.
    discriminate.
Qed.

(** A column is built from the groups of a match whenever an ENUM or a
    SET has no argument: only [_strip_values] on a number raises.  The
    one warning there may be is that of a type that is not known. *)
Lemma column_of_spec_warns (spec : dict) (vn vt : pyval)
  (oa oc : option string) :
  dict_find "name" spec = Some vn ->
  dict_find "coltype" spec = Some vt ->
  dict_find "arg" spec = Some (of_group oa) ->
  dict_get "comment" VNone spec = of_group oc ->
  is_enum_or_set (resolved_type self spec) = false \/ oa = None ->
  exists v,
    column_of_spec self spec = (unknown_type (dialect self) vt vn, inr v).
Proof.
  intros Hn Ht Ha Hc He. unfold column_of_spec, getitem.
  rewrite Hn, Ht, Ha, !bind_ret_l.
  destruct (resolve_type_warns vt vn) as (ct & Er).
  assert (Hct : ct = resolved_type self spec).
  { apply resolve_type_inr in Er. unfold resolved_type, dict_get.
    now rewrite Ht. }
  eapply bind_warns; [exact Er|].
  destruct (positional_args_quiet oa) as (targs & Ep).
  eapply quiet_bind_at; [exact Ep|].
  destruct (take_fsp ct targs) as [targs' tkw] eqn:Ef.
  apply quiet_bind.
  - unfold strip_enum_set. rewrite Hct.
    destruct (is_enum_or_set (resolved_type self spec)) eqn:Ee;
      [|apply quiet_ret].
    destruct He as [He|He]; [discriminate|]. subst oa.
    simpl in Ep. injection Ep as <-.
    unfold take_fsp in Ef. destruct (is_fsp_type ct); injection Ef as <- <-;
      simpl; eexists; reflexivity.
  - intros ak. rewrite Hc. apply quiet_bind.
    + destruct oc; simpl; eexists; reflexivity.
    + intros comment. apply quiet_ret.
Qed.

Lemma column_of_spec_returns (spec : dict) (vn vt : pyval)
  (oa oc : option string) :
  dict_find "name" spec = Some vn ->
  dict_find "coltype" spec = Some vt ->
  dict_find "arg" spec = Some (of_group oa) ->
  dict_get "comment" VNone spec = of_group oc ->
  is_enum_or_set (resolved_type self spec) = false \/ oa = None ->
  returns (column_of_spec self spec).
Proof.
  intros Hn Ht Ha Hc He.
  destruct (column_of_spec_warns spec vn vt oa oc Hn Ht Ha Hc He) as (v & E).
  eexists. eexists. exact E.
Qed.

End Built.



Lemma column_names :
  Re.pat_names (_re_column mysql_parser)
  = [("name", 1); ("coltype", 2); ("arg", 3); ("unsigned", 4);
     ("zerofill", 5); ("charset", 6); ("collate", 7); ("notnull", 8);
     ("default", 9); ("generated", 10); ("persistence", 11);
     ("autoincr", 12); ("comment", 13); ("colfmt", 14); ("storage", 15);
     ("extra", 16)].
Proof. reflexivity. Qed.


(** ** The lines of a statement *)

(** A text without a line break in it: no carriage return, no line
    feed. *)
Definition line_char (a : ascii) : bool :=
  negb (Ascii.eqb a Str.nl) && negb (Ascii.eqb a Str.cr).

Definition one_line (s : string) : bool := all_chars line_char s.

Lemma one_line_has_newline (s : string) :
  one_line s = true -> has_newline s = false.
Proof.
  induction s as [|a s IH]; intros H; [reflexivity|].
  simpl in H. apply andb_true_iff in H. destruct H as [Ha Hs].
  rewrite has_newline_cons_eq, (IH Hs).
  unfold line_char in Ha. apply andb_true_iff in Ha. destruct Ha as [Ha _].
  apply negb_true_iff in Ha. now rewrite Ha.
Qed.

(** The two line ends the pattern of [parse] takes. *)
Definition line_end (sep : string) : Prop :=
  sep = String Str.nl "" \/ sep = String Str.cr (String Str.nl "").

Definition newline_match (whole : string) (p : nat) (sep : string)
  : Re.match_obj :=
  Re.Match whole p (p + String.length sep) [] (Re.pat_names newline_pattern).

Lemma match_newline_char (whole : string) (p : nat) (a : ascii) (s : string) :
  line_char a = true ->
  Re.match_at newline_pattern whole p (String a s) = None.
Proof.
  unfold line_char. intros H. apply andb_true_iff in H. destruct H as [H1 H2].
  apply negb_true_iff in H1. apply negb_true_iff in H2.
  unfold Str.nl in H1. unfold Str.cr in H2.
  unfold Re.match_at. cbn. rewrite H1, H2. reflexivity.
Qed.

(** The first line end after a text without one is where the search
    for the pattern stops. *)
Lemma search_newline_first (whole l sep rest : string) (p : nat) :
  one_line l = true -> line_end sep ->
  Re.search_from newline_pattern whole p (l ++ sep ++ rest)
  = Some (newline_match whole (p + String.length l) sep).
Proof.
  intros Hl Hsep. revert p. induction l as [|a l IH]; intros p.
  - simpl. rewrite Nat.add_0_r.
    destruct Hsep as [-> | ->]; unfold newline_match; simpl;
      unfold Re.match_at; cbn; do 2 f_equal; lia.
  - simpl in Hl. apply andb_true_iff in Hl. destruct Hl as [Ha Hl].
    simpl append. cbn [Re.search_from].
    rewrite match_newline_char by exact Ha.
    rewrite (IH Hl (S p)). simpl. do 2 f_equal. lia.
Qed.

(** [re.split] gives back the lines that were joined with line ends. *)
Lemma split_joined (sep : string) (lines : list string) :
  line_end sep ->
  forall (l0 pre : string) (fuel : nat),
    forallb one_line (l0 :: lines) = true ->
    length lines < fuel ->
    Re.split_from (pre ++ String.concat sep (l0 :: lines)) (String.length pre)
      (Re.finditer_from fuel newline_pattern
         (pre ++ String.concat sep (l0 :: lines)) (String.length pre)
         (String.concat sep (l0 :: lines)))
    = l0 :: lines.
Proof.
  intros Hsep. induction lines as [|l1 lines IH]; intros l0 pre fuel Hc Hf.
  - destruct fuel as [|fuel]; [simpl in Hf; lia|].
    simpl in Hc. rewrite andb_true_r in Hc.
    simpl. rewrite search_newline_none by now apply one_line_has_newline.
    simpl. now rewrite drop_append.
  - destruct fuel as [|fuel]; [simpl in Hf; lia|].
    change (forallb one_line (l0 :: l1 :: lines))
      with (one_line l0 && forallb one_line (l1 :: lines)) in Hc.
    apply andb_true_iff in Hc. destruct Hc as [H0 Hc].
    change (String.concat sep (l0 :: l1 :: lines))
      with (l0 ++ sep ++ String.concat sep (l1 :: lines)).
    set (rest := String.concat sep (l1 :: lines)) in *.
    cbn [Re.finditer_from].
    rewrite search_newline_first by assumption.
    unfold newline_match. cbn [Re.mo_end Re.mo_start].
    assert (Hlen : 0 < String.length sep).
    { destruct Hsep as [-> | ->]; simpl; lia. }
    replace (String.length pre + String.length l0 + String.length sep
             =? String.length pre + String.length l0) with false
      by (symmetry; apply Nat.eqb_neq; lia).
    cbn [Re.split_from Re.mo_end Re.mo_start].
    replace (String.length pre + String.length l0 + String.length sep
             =? String.length pre + String.length l0) with false
      by (symmetry; apply Nat.eqb_neq; lia).
    f_equal.
    + apply slice_middle; reflexivity.
    + replace (String.length pre + String.length l0 + String.length sep
               - String.length pre)
        with (String.length (l0 ++ sep))
        by (rewrite length_append; lia).
      rewrite <- (append_assoc l0 sep rest), drop_append.
      replace (pre ++ (l0 ++ sep) ++ rest) with ((pre ++ l0 ++ sep) ++ rest)
        by (now rewrite (append_assoc pre)).
      replace (String.length pre + String.length l0 + String.length sep)
        with (String.length (pre ++ l0 ++ sep))
        by (rewrite !length_append; lia).
      apply IH; [exact Hc | simpl in Hf; lia].
Qed.

Lemma length_concat_bound (sep : string) (lines : list string) :
  0 < String.length sep ->
  length lines <= S (String.length (String.concat sep lines)).
Proof.
  intros Hs. induction lines as [|l0 lines IH]; [simpl; lia|].
  destruct lines as [|l1 lines]; [simpl; lia|].
  change (String.concat sep (l0 :: l1 :: lines))
    with (l0 ++ sep ++ String.concat sep (l1 :: lines)).
  rewrite !length_append. simpl length in *. lia.
Qed.

(** [parse] reads a statement line by line: lines without a line break
    in them, joined by line feeds or by carriage return and line feed,
    are the lines it loops over. *)
Lemma re_split_joined (sep : string) (l0 : string) (lines : list string) :
  line_end sep ->
  forallb one_line (l0 :: lines) = true ->
  re_split "\r?\n" (String.concat sep (l0 :: lines)) = l0 :: lines.
Proof.
  intros Hsep Hc. unfold re_split. rewrite compile_newline.
  unfold Re.split, Re.finditer.
  apply (split_joined sep lines Hsep l0 "" _ Hc).
  assert (Hlen : 0 < String.length sep).
  { destruct Hsep as [-> | ->]; simpl; lia. }
  pose proof (length_concat_bound sep (l0 :: lines) Hlen) as B.
  simpl length in B. lia.
Qed.

(** ** Groups that always take part *)






(** ** The header line *)




(** ** The text [_describe_to_create] writes *)






(** *** Quoting a name *)





(** *** The statement *)







(** ** Simple rows *)





















(** ** More of what [parse] does *)

(** X2: [parse] reads a statement line by line and takes a line feed
    and a carriage return with a line feed for the same line end: the
    statement made of lines without a line break in them is parsed as
    the loop over these lines, whichever of the two joins them. *)
Theorem X2_parse_line_ends :
  forall (self : MySQLTableDefinitionParser) (l0 : string)
         (lines : list string) (charset : pyval),
    forallb one_line (l0 :: lines) = true ->
    parse self (String.concat (String Str.nl "") (l0 :: lines)) charset
    = foldM (parse_line self) (l0 :: lines) (new_state charset) /\
    parse self (String.concat (String Str.cr (String Str.nl "")) (l0 :: lines))
      charset
    = foldM (parse_line self) (l0 :: lines) (new_state charset).
Proof.
  intros self l0 lines charset H. unfold parse. split.
  - rewrite (re_split_joined (String Str.nl "")); [reflexivity | now left | exact H].
  - rewrite (re_split_joined (String Str.cr (String Str.nl "")));
      [reflexivity | now right | exact H].
Qed.

Definition crlf_statement : string :=
  String.concat (String Str.cr (String Str.nl ""))
    ["CREATE TABLE `t` ("; "  `id` int(11) NOT NULL,"; "  `s` text";
     ") ENGINE=InnoDB"].

Lemma X2_parse_line_ends_witness :
  forallb one_line
    ["CREATE TABLE `t` ("; "  `id` int(11) NOT NULL,"; "  `s` text";
     ") ENGINE=InnoDB"] = true /\
  parse mysql_parser crlf_statement VNone
  = foldM (parse_line mysql_parser)
      ["CREATE TABLE `t` ("; "  `id` int(11) NOT NULL,"; "  `s` text";
       ") ENGINE=InnoDB"] (new_state VNone).
Proof.
  assert (H : forallb one_line
                ["CREATE TABLE `t` ("; "  `id` int(11) NOT NULL,"; "  `s` text";
                 ") ENGINE=InnoDB"] = true) by reflexivity.
  split; [exact H|].
  exact (proj2 (X2_parse_line_ends mysql_parser _ _ VNone H)).
Defined.

(** ** Doubling a quote and undoing it *)

(** A text with every [c] in it doubled. *)
Fixpoint double (c : ascii) (s : string) : string :=
  match s with
  | EmptyString => EmptyString
  | String a s' =>
      if Ascii.eqb a c then String c (String c (double c s'))
      else String a (double c s')
  end.


Lemma replace_fuel_undouble (c : ascii) (fuel : nat) (s : string) :
  String.length s <= fuel ->
  Str.replace_fuel fuel (String c (String c "")) (String c "") (double c s) = s.
Proof.
  revert s. induction fuel as [|fuel IH]; intros s H.
  - destruct s; [reflexivity | simpl in H; lia].
  - destruct s as [|a s]; [reflexivity|].
    simpl in H. cbn [double].
    destruct (Ascii.eqb a c) eqn:E.
    + apply Ascii.eqb_eq in E. subst a.
      cbn [Str.replace_fuel]. rewrite !prefix_cons_eq, prefix_nil.
      destruct (ascii_dec c c); [|congruence].
      simpl. now rewrite IH by lia.
    + cbn [Str.replace_fuel]. rewrite prefix_cons_eq.
      destruct (ascii_dec c a) as [->|N].
      * rewrite Ascii.eqb_refl in E. discriminate.
      * now rewrite IH by lia.
Qed.

Lemma length_double (c : ascii) (s : string) :
  String.length s <= String.length (double c s).
Proof.
  induction s as [|a s IH]; simpl; [lia|].
  destruct (Ascii.eqb a c); simpl; lia.
Qed.


Lemma replace_undouble (c : ascii) (s : string) :
  Str.replace (String c (String c "")) (String c "") (double c s) = s.
Proof.
  unfold Str.replace. apply replace_fuel_undouble.
  pose proof (length_double c s). lia.
Qed.

(** ** The header line with any name *)





(** The header pattern of the MySQL parser after [CREATE ] and the
    optional word. *)
Definition header_ast : Re.regex :=
  Eval vm_compute in Re.pat_ast (fst (_pr_name mysql_parser)).

Definition header_tail : Re.regex :=
  Eval vm_compute in seq_drop 16 header_ast.










(** ** Statements as lists of lines *)

(** An empty line changes nothing. *)
Lemma parse_line_empty (self : MySQLTableDefinitionParser)
  (state : ReflectedState) :
  parse_line self state "" = ret state.
Proof. reflexivity. Qed.

(** The closing line of a statement under [ANSI_QUOTES] changes
    nothing. *)
Lemma parse_line_paren (self : MySQLTableDefinitionParser)
  (state : ReflectedState) :
  parse_line self state ")" = ret state.
Proof.
  unfold parse_line.
  replace (Str.startswith ")" ("  " ++ initial_quote (preparer self)))
    with false by reflexivity.
  reflexivity.
Qed.

(** The statement made of lines without a line break in them is parsed
    as the loop over the lines. *)
Lemma parse_joined (self : MySQLTableDefinitionParser) (lines : list string)
  (charset : pyval) :
  forallb one_line lines = true ->
  parse self (String.concat (String Str.nl "") lines) charset
  = parse_lines self lines charset.
Proof.
  intros H. unfold parse, parse_lines. destruct lines as [|l0 lines].
  - simpl String.concat. rewrite re_split_one_line by reflexivity.
    cbn [foldM]. rewrite parse_line_empty. now rewrite bind_ret_l.
  - rewrite (re_split_joined (String Str.nl "")); [reflexivity | now left | exact H].
Qed.

Lemma forallb_app_inv {A} (f : A -> bool) (l1 l2 : list A) :
  forallb f (l1 ++ l2)%list = true -> forallb f l1 = true /\ forallb f l2 = true.
Proof. rewrite forallb_app. apply andb_true_iff. Qed.

(** X5: [parse] puts up with a line it does not know.  Take the text
    of a statement, its lines without a line break in them, with one
    line that is no column, options, header, closing or empty line and
    that none of the key, constraint and partition patterns matches.
    It is parsed as the text without that line is: the same state, or
    the same exception, and the same warnings with one more, at the
    place of the line, that quotes the line; unless an exception is
    raised before the line is reached, and then the two outcomes are
    the same. *)
Theorem X5_unknown_line_in_statement :
  forall (self : MySQLTableDefinitionParser) (pre post : list string)
         (bad : string) (charset : pyval),
    unknown_line self bad ->
    forallb one_line (pre ++ bad :: post)%list = true ->
    let nl := String Str.nl "" in
    exists w1 w2 r,
      parse self (String.concat nl (pre ++ post)%list) charset = ((w1 ++ w2)%list, r) /\
      (parse self (String.concat nl (pre ++ bad :: post)%list) charset
       = ((w1 ++ UnknownSchemaContent bad :: w2)%list, r) \/
       exists e,
         r = inl e /\ w2 = [] /\
         parse self (String.concat nl (pre ++ bad :: post)%list) charset
         = (w1, inl e)).
Proof.
  intros self pre post bad charset U H nl. unfold nl.
  assert (H' : forallb one_line (pre ++ post)%list = true).
  { apply forallb_app_inv in H. destruct H as [H1 H2].
    simpl in H2. apply andb_true_iff in H2.
    rewrite forallb_app, H1. tauto. }
  rewrite !parse_joined by assumption.
  apply unknown_line_tolerated. exact U.
Qed.

Definition versioned_lines_pre : list string :=
  ["CREATE TABLE `t` ("; "  `id` int(11) NOT NULL,"].
Definition versioned_lines_post : list string :=
  ["  PRIMARY KEY (`id`)"; ") ENGINE=InnoDB"].

Lemma X5_unknown_line_witness :
  unknown_line mysql_parser "  WITH SYSTEM VERSIONING" /\
  forallb one_line
    (versioned_lines_pre ++ "  WITH SYSTEM VERSIONING" :: versioned_lines_post)%list
  = true /\
  exists w1 w2 r,
    parse mysql_parser
      (String.concat (String Str.nl "")
         (versioned_lines_pre ++ versioned_lines_post)%list) VNone
    = ((w1 ++ w2)%list, r) /\
    (parse mysql_parser
       (String.concat (String Str.nl "")
          (versioned_lines_pre ++ "  WITH SYSTEM VERSIONING"
                                  :: versioned_lines_post)%list) VNone
     = ((w1 ++ UnknownSchemaContent "  WITH SYSTEM VERSIONING" :: w2)%list, r) \/
     exists e,
       r = inl e /\ w2 = [] /\
       parse mysql_parser
         (String.concat (String Str.nl "")
            (versioned_lines_pre ++ "  WITH SYSTEM VERSIONING"
                                    :: versioned_lines_post)%list) VNone
       = (w1, inl e)).
Proof.
  assert (U : unknown_line mysql_parser "  WITH SYSTEM VERSIONING").
  { unfold unknown_line. repeat split; vm_compute; reflexivity. }
  assert (H : forallb one_line
                (versioned_lines_pre ++ "  WITH SYSTEM VERSIONING"
                                        :: versioned_lines_post)%list = true)
    by reflexivity.
  split; [exact U|]. split; [exact H|].
  exact (X5_unknown_line_in_statement mysql_parser versioned_lines_pre
           versioned_lines_post "  WITH SYSTEM VERSIONING" VNone U H).
Defined.

(** The lines that [parse] passes over: the empty one and the closing
    parenthesis alone. *)
Definition passed_over (line : string) : bool :=
  String.eqb line "" || String.eqb line ")".

Lemma foldM_passed_over (self : MySQLTableDefinitionParser)
  (lines : list string) (state : ReflectedState) :
  foldM (parse_line self) (filter (fun l => negb (passed_over l)) lines) state
  = foldM (parse_line self) lines state.
Proof.
  revert state. induction lines as [|l lines IH]; intros state; [reflexivity|].
  cbn [filter]. unfold passed_over at 1.
  destruct (String.eqb l "") eqn:E1.
  - apply String.eqb_eq in E1. subst l. cbn [orb negb foldM].
    rewrite parse_line_empty, bind_ret_l. apply IH.
  - destruct (String.eqb l ")") eqn:E2.
    + apply String.eqb_eq in E2. subst l. cbn [orb negb foldM].
      rewrite parse_line_paren, bind_ret_l. apply IH.
    + cbn [orb negb foldM].
      destruct (parse_line self state l) as [w [e|st]]; [reflexivity|].
      cbn [bind]. now rewrite IH.
Qed.

Lemma forallb_filter {A} (f g : A -> bool) (l : list A) :
  forallb f l = true -> forallb f (filter g l) = true.
Proof.
  induction l as [|a l IH]; intros H; [reflexivity|].
  simpl in H. apply andb_true_iff in H. destruct H as [Ha Hl].
  simpl. destruct (g a); simpl; [rewrite Ha|]; now apply IH.
Qed.

(** X6: empty lines and lines that are a closing parenthesis alone
    count for nothing.  A statement, its lines without a line break in
    them, is parsed as the statement without these lines is: the same
    state or exception, the same warnings. *)
Theorem X6_passed_over_lines :
  forall (self : MySQLTableDefinitionParser) (lines : list string)
         (charset : pyval),
    forallb one_line lines = true ->
    parse self (String.concat (String Str.nl "") lines) charset
    = parse self
        (String.concat (String Str.nl "")
           (filter (fun l => negb (passed_over l)) lines)) charset.
Proof.
  intros self lines charset H.
  rewrite !parse_joined by (try apply forallb_filter; exact H).
  unfold parse_lines. now rewrite foldM_passed_over.
Qed.

Lemma X6_passed_over_witness :
  forallb one_line
    ["CREATE TABLE `t` ("; ""; "  `id` int(11) NOT NULL"; ")"; ""] = true /\
  parse mysql_parser
    (String.concat (String Str.nl "")
       ["CREATE TABLE `t` ("; ""; "  `id` int(11) NOT NULL"; ")"; ""]) VNone
  = parse mysql_parser
      (String.concat (String Str.nl "")
         ["CREATE TABLE `t` ("; "  `id` int(11) NOT NULL"]) VNone.
Proof.
  assert (H : forallb one_line
                ["CREATE TABLE `t` ("; ""; "  `id` int(11) NOT NULL"; ")"; ""]
              = true) by reflexivity.
  split; [exact H|].
  exact (X6_passed_over_lines mysql_parser
           ["CREATE TABLE `t` ("; ""; "  `id` int(11) NOT NULL"; ")"; ""]
           VNone H).
Defined.

(** ** [_strip_values] *)

(** A text as MySQL writes a value: between single or double quotes,
    with the quote doubled inside. *)
Definition quote_char (dq : bool) : ascii :=
  if dq then Str.dquote else "'"%char.

Definition quoted_value (dq : bool) (t : string) : string :=
  String (quote_char dq) (double (quote_char dq) t ++ String (quote_char dq) "").

Lemma slice_inner (q : ascii) (body : string) :
  Str.slice 1 (String.length (String q (body ++ String q "")) - 1)
    (String q (body ++ String q ""))
  = body.
Proof.
  unfold Str.slice. simpl Str.drop. simpl String.length.
  rewrite length_append. simpl.
  replace (String.length body + 1 - 0 - 1) with (String.length body) by lia.
  apply take_append.
Qed.

(** Stripping undoes the quoting. *)
Lemma strip_value_quoted_value (dq : bool) (t : string) :
  strip_value (quoted_value dq t) = t.
Proof.
  unfold strip_value, quoted_value.
  rewrite slice_inner.
  replace (Str.slice 0 1
             (String (quote_char dq)
                (double (quote_char dq) t ++ String (quote_char dq) "")))
    with (String (quote_char dq) "") by reflexivity.
  replace (String.eqb (String (quote_char dq) "") (String Str.dquote "")
           || String.eqb (String (quote_char dq) "") "'")
    with true by (destruct dq; reflexivity).
  apply replace_undouble.
Qed.

(** X7: [_strip_values] undoes the quoting of values.  Given the
    values of an ENUM or a SET as MySQL writes them, each between
    single or double quotes with that quote doubled inside, it returns
    the values themselves, in the same order, and raises nothing. *)
Theorem X7_strip_values_unquotes :
  forall (values : list (bool * string)),
    _strip_values
      (map (fun v => VStr (quoted_value (fst v) (snd v))) values)
    = ([], inr (map (fun v => VStr (snd v)) values)).
Proof.
  induction values as [|[dq t] values IH]; [reflexivity|].
  cbn [map _strip_values fst snd as_str].
  rewrite bind_ret_l, IH. cbn [bind ret app].
  now rewrite strip_value_quoted_value.
Qed.

(** A value of a column type as the parser reads it from the
    arguments: a text or a number. *)
Definition arg_value (v : string + nat) : pyval :=
  match v with inl s => VStr s | inr n => VInt n end.

Definition is_text (v : string + nat) : bool :=
  match v with inl _ => true | inr _ => false end.

Definition begins_with_quote (a : string) : bool :=
  match a with
  | String c _ => Ascii.eqb c Str.dquote || Ascii.eqb c "'"
  | EmptyString => false
  end.

Lemma strip_value_plain (a : string) :
  begins_with_quote a = false -> strip_value a = a.
Proof.
  unfold strip_value. destruct a as [|c a]; [reflexivity|].
  cbn [begins_with_quote]. intros H.
  replace (Str.slice 0 1 (String c a)) with (String c "") by reflexivity.
  apply orb_false_iff in H. destruct H as [H1 H2].
  cbn [String.eqb]. rewrite H1, H2. reflexivity.
Qed.

(** X8: what [_strip_values] does with texts and numbers.  On texts
    alone it returns as many values as it was given, and a text that
    does not begin with a quote comes back as it is; as soon as one of
    the values is a number it raises [TypeError], and returns
    nothing. *)
Theorem X8_strip_values_texts_and_numbers :
  forall (values : list (string + nat)),
    (forallb is_text values = true ->
     exists out,
       _strip_values (map arg_value values) = ([], inr out) /\
       length out = length values /\
       forall i a,
         nth_error values i = Some (inl a) ->
         begins_with_quote a = false ->
         nth_error out i = Some (VStr a)) /\
    (forallb is_text values = false ->
     _strip_values (map arg_value values) = ([], inl TypeError)).
Proof.
  induction values as [|v values [IH1 IH2]].
  - split; [|discriminate]. intros _. exists []. repeat split.
    intros [|i] a H; discriminate.
  - split.
    + intros H. simpl in H. apply andb_true_iff in H. destruct H as [Hv Hvs].
      destruct v as [s|n]; [|discriminate].
      destruct (IH1 Hvs) as (out & E & Hl & Hn).
      exists (VStr (strip_value s) :: out).
      cbn [map arg_value _strip_values as_str].
      rewrite bind_ret_l, E. cbn [bind ret app].
      split; [reflexivity|]. split; [simpl; now rewrite Hl|].
      intros [|i] a Hi Hq.
      * injection Hi as <-. simpl. now rewrite strip_value_plain.
      * simpl in Hi. simpl. now apply Hn.
    + intros H. cbn [map _strip_values].
      destruct v as [s|n]; [|reflexivity].
      simpl in H. cbn [arg_value as_str]. rewrite bind_ret_l.
      now rewrite (IH2 H).
Qed.

Lemma X8_strip_values_witness :
  forallb is_text [inl "a"; inl "'b'"] = true /\
  forallb is_text [inl "a"; inr 5] = false /\
  (exists out,
     _strip_values (map arg_value [inl "a"; inl "'b'"]) = ([], inr out) /\
     length out = 2 /\ nth_error out 0 = Some (VStr "a")) /\
  _strip_values (map arg_value [inl "a"; inr 5]) = ([], inl TypeError).
Proof.
  assert (H1 : forallb is_text [inl "a"; inl "'b'"] = true) by reflexivity.
  assert (H2 : forallb is_text [inl "a"; inr 5] = false) by reflexivity.
  split; [exact H1|]. split; [exact H2|]. split.
  - destruct (proj1 (X8_strip_values_texts_and_numbers [inl "a"; inl "'b'"]) H1)
      as (out & E & Hl & Hn).
    exists out. split; [exact E|]. split; [exact Hl|].
    apply (Hn 0 "a"); reflexivity.
  - exact (proj2 (X8_strip_values_texts_and_numbers [inl "a"; inr 5]) H2).
Defined.

(** ** What one line can do to the state *)

(** The ways in which a line changes the state: not at all, or by one
    more column, by new table options, by a table name, or by one more
    key, foreign key or check constraint. *)
Inductive line_effect (self : MySQLTableDefinitionParser) (line : string)
  (state state' : ReflectedState) : Prop :=
| Unchanged : state' = state -> line_effect self line state state'
| NewColumn (col : pyval) :
    Str.startswith line ("  " ++ initial_quote (preparer self)) = true ->
    state' = set_columns state (columns state ++ [col])%list ->
    line_effect self line state state'
| NewOptions (t : dict) :
    Str.startswith line ") " = true ->
    state' = set_table_options state t ->
    line_effect self line state state'
| NewName (n : string) :
    Str.startswith line "CREATE " = true ->
    state' = set_table_name state (VStr n) ->
    line_effect self line state state'
| NewKey (k : pyval) :
    state' = set_keys state (keys state ++ [k])%list ->
    line_effect self line state state'
| NewForeignKey (k : pyval) :
    state' = set_fk_constraints state (fk_constraints state ++ [k])%list ->
    line_effect self line state state'
| NewCheck (k : pyval) :
    state' = set_ck_constraints state (ck_constraints state ++ [k])%list ->
    line_effect self line state state'.

Lemma parse_line_effect (self : MySQLTableDefinitionParser)
  (state state' : ReflectedState) (line : string) (ws : list warning) :
  parse_line self state line = (ws, inr state') ->
  line_effect self line state state'.
Proof.
  unfold parse_line.
  destruct (Str.startswith line ("  " ++ initial_quote (preparer self))) eqn:E1.
  { unfold _parse_column. destruct (column_spec self line) as [spec|].
    - intros H. apply bind_inr in H. destruct H as (? & ? & ? & _ & H & _).
      apply bind_inr in H. destruct H as (? & col & ? & _ & H & _).
      injection H as _ <-. now apply (NewColumn _ _ _ _ col).
    - intros H. apply bind_inr in H. destruct H as (? & ? & ? & _ & H & _).
      injection H as _ <-. now apply Unchanged. }
  destruct (Str.startswith line ") ") eqn:E2.
  { intros H. apply _parse_table_options_inr in H.
    destruct H as (options & Hs & ->). eapply NewOptions; [exact E2 | reflexivity]. }
  destruct (String.eqb line ")"); [intros [= _ <-]; now apply Unchanged|].
  destruct (Str.startswith line "CREATE ") eqn:E4.
  { intros H. apply _parse_table_name_inr in H.
    destruct H as [_ [[_ ->]|(mo & n & _ & _ & ->)]];
      [now apply Unchanged | eapply NewName; [exact E4 | reflexivity]]. }
  destruct (negb (Str.truthy line)); [intros [= _ <-]; now apply Unchanged|].
  intros H. apply bind_inr in H.
  destruct H as (? & [type_ spec] & ? & _ & H & _).
  destruct (is_none type_).
  { apply bind_inr in H. destruct H as (? & ? & ? & _ & H & _).
    injection H as _ <-. now apply Unchanged. }
  destruct (eq_str type_ "key");
    [injection H as _ <-; now apply (NewKey _ _ _ _ spec)|].
  destruct (eq_str type_ "fk_constraint");
    [injection H as _ <-; now apply (NewForeignKey _ _ _ _ spec)|].
  destruct (eq_str type_ "ck_constraint"); injection H as _ <-;
    [now apply (NewCheck _ _ _ _ spec) | now apply Unchanged].
Qed.

(** X9: one line, one change at most.  When [parse] gets through a
    line, the state is as before, or has one more column (only for a
    line that begins with two spaces and the quote), or new table
    options (only for a line that begins with a closing parenthesis
    and a space), or a table name (only for a line that begins with
    [CREATE ]), or one more key, or one more foreign key, or one more
    check constraint: one of these, and everything else of the state,
    the charset included, is as before; what was in the lists
    stays, in its place. *)
Theorem X9_one_line_one_change :
  forall (self : MySQLTableDefinitionParser) (state state' : ReflectedState)
         (line : string) (ws : list warning),
    parse_line self state line = (ws, inr state') ->
    state' = state \/
    (Str.startswith line ("  " ++ initial_quote (preparer self)) = true /\
     exists col, state' = set_columns state (columns state ++ [col])%list) \/
    (Str.startswith line ") " = true /\
     exists t, state' = set_table_options state t) \/
    (Str.startswith line "CREATE " = true /\
     exists n, state' = set_table_name state (VStr n)) \/
    (exists k, state' = set_keys state (keys state ++ [k])%list) \/
    (exists k,
        state' = set_fk_constraints state (fk_constraints state ++ [k])%list) \/
    (exists k,
        state' = set_ck_constraints state (ck_constraints state ++ [k])%list).
Proof.
  intros self state state' line ws H.
  destruct (parse_line_effect self state state' line ws H)
    as [E|col Hl E|t Hl E|n Hl E|k E|k E|k E]; eauto 10.
Qed.

Definition key_line : string := "  PRIMARY KEY (`id`)".

Definition key_state : ReflectedState :=
  Eval vm_compute in
    match parse_line mysql_parser (new_state VNone) key_line with
    | (_, inr st) => st
    | (_, inl _) => new_state VNone
    end.

Lemma X9_one_line_witness :
  parse_line mysql_parser (new_state VNone) key_line = ([], inr key_state) /\
  exists k, key_state = set_keys (new_state VNone) [k].
Proof.
  assert (H : parse_line mysql_parser (new_state VNone) key_line
              = ([], inr key_state)) by (vm_compute; reflexivity).
  split; [exact H|].
  destruct (X9_one_line_one_change mysql_parser (new_state VNone) key_state
              key_line [] H)
    as [E|[[E _]|[[E _]|[[E _]|[[k E]|[[k E]|[k E]]]]]]];
    try discriminate E.
  exists k. exact E.
Defined.

(** The entries of a state: its columns, keys and constraints. *)
Definition entries (st : ReflectedState) : nat :=
  length (columns st) + length (keys st) + length (fk_constraints st)
  + length (ck_constraints st).

Lemma line_effect_entries (self : MySQLTableDefinitionParser) (line : string)
  (state state' : ReflectedState) :
  line_effect self line state state' ->
  charset state' = charset state /\ entries state' <= S (entries state).
Proof.
  intros [E|col Hl E|t Hl E|n Hl E|k E|k E|k E]; subst state';
    (split; [reflexivity|]); unfold entries; simpl;
    rewrite ?length_app; simpl; lia.
Qed.

Lemma foldM_entries (self : MySQLTableDefinitionParser) (lines : list string) :
  forall (state state' : ReflectedState) (ws : list warning),
    foldM (parse_line self) lines state = (ws, inr state') ->
    charset state' = charset state /\
    entries state' <= length lines + entries state.
Proof.
  induction lines as [|l lines IH]; intros state state' ws H.
  - injection H as _ <-. simpl. auto.
  - cbn [foldM] in H. apply bind_inr in H.
    destruct H as (w1 & st1 & w2 & H1 & H2 & _).
    apply parse_line_effect in H1. apply line_effect_entries in H1.
    apply IH in H2. destruct H1 as [C1 N1]. destruct H2 as [C2 N2].
    split; [congruence | simpl; lia].
Qed.

(** X10: the state [parse] returns has the charset it was given, and
    not more columns, keys and constraints together than the statement
    has lines. *)
Theorem X10_parse_charset_and_entries :
  forall (self : MySQLTableDefinitionParser) (show_create : string)
         (charset0 : pyval) (ws : list warning) (state : ReflectedState),
    parse self show_create charset0 = (ws, inr state) ->
    charset state = charset0 /\
    entries state <= length (re_split "\r?\n" show_create).
Proof.
  intros self text charset0 ws state H. unfold parse in H.
  apply foldM_entries in H. destruct H as [C N].
  split; [exact C|]. unfold entries in *. simpl in N. lia.
Qed.

Definition keyed_statement : string :=
  String.concat (String Str.nl "")
    ["CREATE TABLE `t` ("; "  `id` int(11) NOT NULL,";
     "  PRIMARY KEY (`id`)"; ") ENGINE=InnoDB"].

Definition keyed_state : ReflectedState :=
  Eval vm_compute in
    match parse mysql_parser keyed_statement (VStr "utf8") with
    | (_, inr st) => st
    | (_, inl _) => new_state VNone
    end.

Lemma X10_parse_charset_witness :
  parse mysql_parser keyed_statement (VStr "utf8") = ([], inr keyed_state) /\
  charset keyed_state = VStr "utf8" /\
  entries keyed_state <= length (re_split "\r?\n" keyed_statement).
Proof.
  assert (H : parse mysql_parser keyed_statement (VStr "utf8")
              = ([], inr keyed_state)) by (vm_compute; reflexivity).
  split; [exact H|].
  exact (X10_parse_charset_and_entries mysql_parser keyed_statement
           (VStr "utf8") [] keyed_state H).
Defined.
